(** * node-ratelimiter: a fixed-window quota tracker over a Redis store

    Shallow embedding of [src/index.js] (module [Index]) and of its
    variant [src/unnamed/part_000] (module [Part000]), together
    with the part of the JavaScript runtime and of the Redis store the
    two files rely on.

    Conventions.
    - The configured numbers ([max], [duration], [decrBy]) and the clock
      readings are integer-valued doubles; they are kept in [Z].  The
      arithmetic the source performs on them ([+], [-], [*], [Math.max])
      is exact below 2^53, so it is written with the operations of [Z].
    - Values that come back from the store are JavaScript values
      ([JS.prim], [JS.value]); the coercions the source applies to them
      ([!x], [x !== 0], [~~x], [x | 0]) are written out in module [JS].
    - The source is in continuation-passing style: every [db] call takes
      a callback.  A function of the source becomes a value of type
      [action]: the request it issues, and what its callback does with
      each possible reply. *)

From Stdlib Require Import ZArith QArith Lia.
From stdpp Require Import base numbers strings list gmap pretty.

Open Scope Z_scope.

(** ** The JavaScript values and coercions used by the source *)

Module JS.

(** A double: not-a-number, an infinity, or a finite value, which is a
    rational.  Negative zero behaves as zero in every operation of the
    source and is not told apart. *)
Inductive number :=
  | NaN
  | Infinity (negative : bool)
  | Finite (q : Q).

Definition of_Z (z : Z) : number := Finite (inject_Z z).

(** The primitives a store reply is made of. *)
Inductive prim :=
  | Undefined
  | Null
  | Bool (b : bool)
  | Num (x : number)
  | Str (s : string).

(** What a transaction reports for one command: a primitive or an
    [Error] object, bare (node_redis) or inside an array (the
    [[err, value]] pairs of ioredis). *)
Inductive scalar :=
  | Prim (p : prim)
  | Error (message : string).

Inductive value :=
  | Bare (s : scalar)
  | Array (items : list scalar).

Definition is_zero (x : number) : bool :=
  match x with
  | Finite q => Qnum q =? 0
  | _ => false
  end.

(** [ToBoolean]: the truthiness tested by [!x] and [if (x)]. *)
Definition ToBoolean_prim (p : prim) : bool :=
  match p with
  | Undefined | Null => false
  | Bool b => b
  | Num NaN => false
  | Num x => negb (is_zero x)
  | Str s => negb (String.eqb s "")
  end.

Definition ToBoolean_scalar (s : scalar) : bool :=
  match s with
  | Prim p => ToBoolean_prim p
  | Error _ => true
  end.

Definition ToBoolean (v : value) : bool :=
  match v with
  | Bare s => ToBoolean_scalar s
  | Array _ => true
  end.

(** [p !== 0]: strict inequality with the number zero.  Only a number
    can be strictly equal to a number. *)
Definition strict_ne_zero (p : prim) : bool :=
  match p with
  | Num x => negb (is_zero x)
  | _ => true
  end.

(** [a[i]]: reading past the end of an array gives [undefined]. *)
Definition at_prim (a : list prim) (i : nat) : prim := nth i a Undefined.
Definition at_scalar (a : list scalar) (i : nat) : scalar := nth i a (Prim Undefined).
Definition at_value (a : list value) (i : nat) : value := nth i a (Bare (Prim Undefined)).

(** The runtime's conversion of a string to a number (the
    StringNumericLiteral grammar followed by rounding to a double) is
    taken from the runtime, not written here. *)
Class Runtime := StringToNumber : string -> number.

Section coercions.
Context `{Runtime}.

Definition ToNumber (p : prim) : number :=
  match p with
  | Undefined => NaN
  | Null => of_Z 0
  | Bool b => of_Z (if b then 1 else 0)
  | Num x => x
  | Str s => StringToNumber s
  end.
End coercions.

(** Truncation of a finite double toward zero. *)
Definition truncate (q : Q) : Z := Z.quot (Qnum q) (Z.pos (Qden q)).

(** Reduction modulo 2^32 into the signed range [-2^31, 2^31). *)
Definition wrap32 (z : Z) : Z := (z + 2 ^ 31) mod 2 ^ 32 - 2 ^ 31.

(** [ToInt32]: NaN and the infinities give 0; a finite value is
    truncated toward zero and reduced modulo 2^32. *)
Definition ToInt32 (x : number) : Z :=
  match x with
  | Finite q => wrap32 (truncate q)
  | NaN | Infinity _ => 0
  end.

(** [~x] on a number, and [x | y]. *)
Definition bitnot (x : number) : Z := Z.lnot (ToInt32 x).
Definition bitor (x y : number) : Z := Z.lor (ToInt32 x) (ToInt32 y).

(** [~~p] on a value read from the store. *)
Definition double_bitnot `{Runtime} (p : prim) : Z :=
  bitnot (of_Z (bitnot (ToNumber p))).

(** [x / y] for integer-valued [x] and a positive integer [y]. *)
Definition divide (x : Z) (y : positive) : number := Finite (x # y).

(** [Number.prototype.toString] on an integer: decimal digits with a
    leading minus sign for a negative one (the exponent notation of
    magnitudes from 1e21 on is not needed). *)
Definition NumberToString (z : Z) : string := pretty z.

End JS.

(** ** The store client as the source uses it *)

(** The condition of a [SET]: ['NX'] (only if absent) or ['XX'] (only
    if present). *)
Inductive condition := NX | XX.

(** The commands the source queues in a [multi()]:
    [set([key, value, 'PX', px, cond])] and [pexpire([key, ms])]. *)
Inductive command :=
  | SET (key : string) (val : Z) (px : Z) (cond : condition)
  | PEXPIRE (key : string) (ms : Z).

(** The key a command is about. *)
Definition command_key (c : command) : string :=
  match c with
  | SET key _ _ _ => key
  | PEXPIRE key _ => key
  end.

(** What [query] hands to its callback: [{total, remaining, reset}]. *)
Record info := { total : Z; remaining : Z; reset : Z }.

(** [cb(err)] or [cb(null, info)]. *)
Inductive outcome :=
  | Failure (err : string)
  | Success (res : info).

(** A function of the source, as the interaction it has: it reads the
    clock, or issues one store request and goes on in the callback, or
    calls [cb].  [OutOfRetries] ends an embedding whose retry budget is
    used up (see [mget]); the source has no such end. *)
Inductive action :=
  | Return (o : outcome)
  | DateNow (k : Z -> action)
  | DbWatch (keys : list string) (k : option string -> action)
  | DbMget (keys : list string) (k : option string -> list JS.prim -> action)
  | DbExec (cmds : list command)
      (k : option string -> option (list JS.value) -> action)
  | OutOfRetries.

(** What the environment answers: a clock reading or the arguments the
    client passes to a callback ([err] is [None] for [null]; the
    replies of [exec] are [None] for [null] or [undefined]). *)
Inductive event :=
  | Clock (now : Z)
  | Watched (err : option string)
  | Values (err : option string) (res : list JS.prim)
  | Replies (err : option string) (res : option (list JS.value)).

(** One answer of the environment to the pending action. *)
Definition step (a : action) (e : event) : option action :=
  match a, e with
  | DateNow k, Clock now => Some (k now)
  | DbWatch _ k, Watched err => Some (k err)
  | DbMget _ k, Values err res => Some (k err res)
  | DbExec _ k, Replies err res => Some (k err res)
  | _, _ => None
  end.

Fixpoint steps (a : action) (es : list event) : option action :=
  match es with
  | [] => Some a
  | e :: es => match step a e with
               | Some a' => steps a' es
               | None => None
               end
  end.

(** [always P a]: whatever the environment answers, an outcome that [a]
    hands to the callback satisfies [P]. *)
Fixpoint always (P : outcome -> Prop) (a : action) : Prop :=
  match a with
  | Return o => P o
  | DateNow k => forall now, always P (k now)
  | DbWatch _ k => forall err, always P (k err)
  | DbMget _ k => forall err res, always P (k err res)
  | DbExec _ k => forall err res, always P (k err res)
  | OutOfRetries => True
  end.

(** The outcome is an error or reports the total [m]. *)
Definition reports (m : Z) (o : outcome) : Prop :=
  match o with
  | Success r => total r = m
  | Failure _ => True
  end.

(** The transaction an action is about to execute, if any. *)
Definition pending_exec (a : action) : option (list command) :=
  match a with
  | DbExec cmds _ => Some cmds
  | _ => None
  end.

(** ** [src/index.js] *)

Module Index.

(** [function Limiter(opts)]: the fields of the instance.  [db] is the
    environment of the actions; [assert(this.id)] fails on an empty
    [id], and then there is no instance. *)
Record Limiter := {
  id : string;
  max : Z;
  duration : Z;
  prefix : string
}.

(** [opts.max || 2500]: an absent or zero option gives the default. *)
Definition or_default (o : option Z) (d : Z) : Z :=
  match o with
  | Some x => if x =? 0 then d else x
  | None => d
  end.

Definition new_Limiter (opts_id : string) (opts_max opts_duration : option Z)
  : option Limiter :=
  if String.eqb opts_id "" then None
  else Some {| id := opts_id;
               max := or_default opts_max 2500;
               duration := or_default opts_duration 3600000;
               prefix := "limit:" +:+ opts_id +:+ ":" |}.

(** [Limiter.prototype.inspect()] *)
Definition inspect (self : Limiter) : string :=
  "<Limiter id=" +:+ id self
  +:+ ", duration=" +:+ JS.NumberToString (duration self)
  +:+ ", max=" +:+ JS.NumberToString (max self) +:+ ">".

(** The array [[count, reset, max, duration, decrBy]] passed around as
    [opts]. *)
Record Opts := {
  count : string;
  reset_key : string;
  opt_max : Z;
  opt_duration : Z;
  decrBy : Z
}.

(** [isFirstReplyNull(replies)] *)
Definition isFirstReplyNull (replies : option (list JS.value)) : bool :=
  match replies with
  | None => true
  | Some replies =>
      match JS.at_value replies 0 with
      | JS.Array entry => negb (JS.ToBoolean_scalar (JS.at_scalar entry 1))
      | first => negb (JS.ToBoolean first)
      end
  end.

(** The test of [mget]'s callback: [!res[0] && res[0] !== 0]. *)
Definition absent (first : JS.prim) : bool :=
  negb (JS.ToBoolean_prim first) && JS.strict_ne_zero first.

Section functions.
Context `{JS.Runtime}.

(** The transaction of [create]. *)
Definition create_multi (opts : Opts) (adjustedMax ex : Z) : list command :=
  [ SET (count opts) adjustedMax (opt_duration opts) NX;
    SET (reset_key opts) ex (opt_duration opts) NX ].

(** [create(db, opts, cb)]; [retry] stands for the call
    [mget(db, opts, cb)] in its callback. *)
Definition create (retry : action) (opts : Opts) : action :=
  DateNow (fun now =>
    let ex := JS.bitor (JS.divide (now + opt_duration opts) 1000) (JS.of_Z 0) in
    let adjustedMax := Z.max (opt_max opts - (decrBy opts - 1)) 0 in
    DbExec (create_multi opts adjustedMax ex) (fun err res =>
      match err with
      | Some e => Return (Failure e)
      | None =>
          if isFirstReplyNull res then retry
          else Return (Success {| total := opt_max opts;
                                  remaining := adjustedMax;
                                  reset := ex |})
      end)).

(** The transaction of [decr]; [n] is the count already decremented. *)
Definition decr_multi (opts : Opts) (n ex dateNow : Z) : list command :=
  [ SET (count opts) n (ex * 1000 - dateNow) XX;
    PEXPIRE (reset_key opts) (ex * 1000 - dateNow) ].

(** The inner function [done] of [decr], at the current value of [n]. *)
Definition done (opts : Opts) (n ex : Z) : action :=
  Return (Success {| total := opt_max opts;
                     remaining := Z.max n 0;
                     reset := ex |}).

(** [decr(db, opts, res, cb)] *)
Definition decr (retry : action) (opts : Opts) (res : list JS.prim) : action :=
  let n := JS.double_bitnot (JS.at_prim res 0) in
  let ex := JS.double_bitnot (JS.at_prim res 1) in
  DateNow (fun dateNow =>
    if n <=? 0 then done opts n ex
    else
      let n := n - decrBy opts in
      DbExec (decr_multi opts n ex dateNow) (fun err res =>
        match err with
        | Some e => Return (Failure e)
        | None => if isFirstReplyNull res then retry else done opts n ex
        end)).

(** [mget(db, opts, cb)].  The source recurses without bound: [create]
    and [decr] call [mget] again when their transaction had no effect.
    [retries] bounds the number of such restarts that are unfolded;
    the restart after the last one is [OutOfRetries]. *)
Fixpoint mget (retries : nat) (opts : Opts) : action :=
  let retry := match retries with
               | O => OutOfRetries
               | S r => mget r opts
               end in
  DbWatch [count opts] (fun err =>
    match err with
    | Some e => Return (Failure e)
    | None =>
        DbMget [count opts; reset_key opts] (fun err res =>
          match err with
          | Some e => Return (Failure e)
          | None =>
              if absent (JS.at_prim res 0) then create retry opts
              else decr retry opts res
          end)
    end).

(** What [mget] does when it is called again from a callback. *)
Definition restart (retries : nat) (opts : Opts) : action :=
  match retries with
  | O => OutOfRetries
  | S r => mget r opts
  end.

(** [Limiter.prototype.get(decrBy, fn)]; [decrBy] is [None] when the
    first argument is the callback. *)
Definition get (retries : nat) (self : Limiter) (decrBy : option Z) : action :=
  let decrBy := match decrBy with Some d => d | None => 1 end in
  mget retries {| count := prefix self +:+ "count";
                  reset_key := prefix self +:+ "reset";
                  opt_max := max self;
                  opt_duration := duration self;
                  decrBy := decrBy |}.
End functions.

End Index.

(** ** [src/unnamed/part_000]: the variant that also keeps a [limit] key *)

Module Part000.

Record Limiter := {
  id : string;
  max : Z;
  duration : Z;
  prefix : string
}.

Definition or_default (o : option Z) (d : Z) : Z :=
  match o with
  | Some x => if x =? 0 then d else x
  | None => d
  end.

Definition new_Limiter (opts_id : string) (opts_max opts_duration : option Z)
  : option Limiter :=
  if String.eqb opts_id "" then None
  else Some {| id := opts_id;
               max := or_default opts_max 2500;
               duration := or_default opts_duration 3600000;
               prefix := "limit:" +:+ opts_id +:+ ":" |}.

Definition inspect (self : Limiter) : string :=
  "<Limiter id=" +:+ id self
  +:+ ", duration=" +:+ JS.NumberToString (duration self)
  +:+ ", max=" +:+ JS.NumberToString (max self) +:+ ">".

(** The array [[count, limit, reset, max, duration]]. *)
Record Opts := {
  count : string;
  limit : string;
  reset_key : string;
  opt_max : Z;
  opt_duration : Z
}.

(** [isFirstReplyNull(replies)], the same text as in [src/index.js]. *)
Definition isFirstReplyNull (replies : option (list JS.value)) : bool :=
  match replies with
  | None => true
  | Some replies =>
      match JS.at_value replies 0 with
      | JS.Array entry => negb (JS.ToBoolean_scalar (JS.at_scalar entry 1))
      | first => negb (JS.ToBoolean first)
      end
  end.

(** The test of [mget]'s callback: [!res[0] && res[0] !== 0]. *)
Definition absent (first : JS.prim) : bool :=
  negb (JS.ToBoolean_prim first) && JS.strict_ne_zero first.

Section functions.
Context `{JS.Runtime}.

Definition create_multi (opts : Opts) (ex : Z) : list command :=
  [ SET (count opts) (opt_max opts) (opt_duration opts) NX;
    SET (limit opts) (opt_max opts) (opt_duration opts) NX;
    SET (reset_key opts) ex (opt_duration opts) NX ].

(** [create(db, opts, cb)] *)
Definition create (retry : action) (opts : Opts) : action :=
  DateNow (fun now =>
    let ex := JS.bitor (JS.divide (now + opt_duration opts) 1000) (JS.of_Z 0) in
    DbExec (create_multi opts ex) (fun err res =>
      match err with
      | Some e => Return (Failure e)
      | None =>
          if isFirstReplyNull res then retry
          else Return (Success {| total := opt_max opts;
                                  remaining := opt_max opts;
                                  reset := ex |})
      end)).

Definition decr_multi (opts : Opts) (n ex dateNow : Z) : list command :=
  [ SET (count opts) (n - 1) (ex * 1000 - dateNow) XX;
    PEXPIRE (limit opts) (ex * 1000 - dateNow);
    PEXPIRE (reset_key opts) (ex * 1000 - dateNow) ].

(** The inner [done]: here [max] is the value read from the [limit]
    key, and [n < 0 ? 0 : n] is the remaining quota. *)
Definition done (max n ex : Z) : action :=
  Return (Success {| total := max;
                     remaining := if n <? 0 then 0 else n;
                     reset := ex |}).

(** [decr(db, opts, res, cb)] *)
Definition decr (retry : action) (opts : Opts) (res : list JS.prim) : action :=
  let n := JS.double_bitnot (JS.at_prim res 0) in
  let max := JS.double_bitnot (JS.at_prim res 1) in
  let ex := JS.double_bitnot (JS.at_prim res 2) in
  DateNow (fun dateNow =>
    if n <=? 0 then done max n ex
    else
      DbExec (decr_multi opts n ex dateNow) (fun err res =>
        match err with
        | Some e => Return (Failure e)
        | None =>
            if isFirstReplyNull res then retry
            else let n := n - 1 in done max n ex
        end)).

(** [mget(db, opts, cb)]: [opts.slice(0, 1)] is watched and
    [opts.slice(0, 3)] is read. *)
Fixpoint mget (retries : nat) (opts : Opts) : action :=
  let retry := match retries with
               | O => OutOfRetries
               | S r => mget r opts
               end in
  DbWatch [count opts] (fun err =>
    match err with
    | Some e => Return (Failure e)
    | None =>
        DbMget [count opts; limit opts; reset_key opts] (fun err res =>
          match err with
          | Some e => Return (Failure e)
          | None =>
              if absent (JS.at_prim res 0) then create retry opts
              else decr retry opts res
          end)
    end).

Definition restart (retries : nat) (opts : Opts) : action :=
  match retries with
  | O => OutOfRetries
  | S r => mget r opts
  end.

(** [Limiter.prototype.get(fn)] *)
Definition get (retries : nat) (self : Limiter) : action :=
  mget retries {| count := prefix self +:+ "count";
                  limit := prefix self +:+ "limit";
                  reset_key := prefix self +:+ "reset";
                  opt_max := max self;
                  opt_duration := duration self |}.
End functions.

End Part000.

(** ** The store: the Redis commands the two files issue

    The store is not part of the repository.  The commands are modelled
    from the Redis command reference: a key holds a string and an
    optional expiration time (milliseconds on the server's clock) and is
    absent once that time is reached; a transaction runs its commands in
    order at one instant; [EXEC] runs nothing and replies null when a
    watched key was written by another connection since [WATCH]. *)

Module Redis.

Record entry := { value : string; expire_at : option Z }.

Definition live (now : Z) (e : entry) : bool :=
  match expire_at e with
  | Some t => now <? t
  | None => true
  end.

(** The entry of a key at time [now], if the key exists then. *)
Definition get (now : Z) (db : gmap string entry) (key : string) : option entry :=
  match db !! key with
  | Some e => if live now e then Some e else None
  | None => None
  end.


(** The replies of the protocol: a status, a nil, an integer, an error. *)
Inductive reply :=
  | Ok
  | Nil
  | Int (z : Z)
  | Err (message : string).

(** [SET key val PX px NX|XX]: a non-positive [px] is refused with an
    error; otherwise the write happens if the condition holds.
    [PEXPIRE key ms]: 0 when the key is absent; a non-positive [ms]
    deletes the key; otherwise the expiration is replaced. *)
Definition exec_command (now : Z) (db : gmap string entry) (c : command)
  : gmap string entry * reply :=
  match c with
  | SET key val px cond =>
      if px <=? 0 then (db, Err "ERR invalid expire time in 'set' command")
      else
        match cond, get now db key with
        | NX, Some _ => (db, Nil)
        | XX, None => (db, Nil)
        | _, _ =>
            (<[key := {| value := JS.NumberToString val;
                         expire_at := Some (now + px) |}]> db, Ok)
        end
  | PEXPIRE key ms =>
      match get now db key with
      | None => (db, Int 0)
      | Some e =>
          if ms <=? 0 then (delete key db, Int 1)
          else (<[key := {| value := value e;
                            expire_at := Some (now + ms) |}]> db, Int 1)
      end
  end.

Fixpoint exec_commands (now : Z) (db : gmap string entry) (cs : list command)
  : gmap string entry * list reply :=
  match cs with
  | [] => (db, [])
  | c :: cs =>
      let '(db1, r) := exec_command now db c in
      let '(db2, rs) := exec_commands now db1 cs in
      (db2, r :: rs)
  end.

(** The key a command writes, when it took effect. *)
Definition written (c : command) (r : reply) : option string :=
  match c, r with
  | SET key _ _ _, Ok => Some key
  | PEXPIRE key _, Int 1 => Some key
  | _, _ => None
  end.

(** The two client libraries the source supports, by the shape in which
    they hand over the replies of a transaction. *)
Inductive client := node_redis | ioredis.

Definition to_scalar (r : reply) : JS.scalar :=
  match r with
  | Ok => JS.Prim (JS.Str "OK")
  | Nil => JS.Prim JS.Null
  | Int z => JS.Prim (JS.Num (JS.of_Z z))
  | Err m => JS.Error m
  end.

Definition shape (c : client) (r : reply) : JS.value :=
  match c with
  | node_redis => JS.Bare (to_scalar r)
  | ioredis =>
      match r with
      | Err m => JS.Array [JS.Error m]
      | _ => JS.Array [JS.Prim JS.Null; to_scalar r]
      end
  end.

(** The server as one connection sees it: the keys, the keys this
    connection watches, and whether one of them was written by another
    connection since. *)
Record server := {
  db : gmap string entry;
  watching : list string;
  dirty : bool
}.

(** The commands of other connections, run at time [now]. *)
Fixpoint interfere (now : Z) (cs : list command) (s : server) : server :=
  match cs with
  | [] => s
  | c :: cs =>
      let '(db1, r) := exec_command now (db s) c in
      let touched := match written c r with
                     | Some key => bool_decide (key ∈ watching s)
                     | None => false
                     end in
      interfere now cs {| db := db1;
                          watching := watching s;
                          dirty := dirty s || touched |}
  end.

(** The answer to a [MGET]: the string of each key, or null. *)
Definition read (now : Z) (db : gmap string entry) (key : string) : JS.prim :=
  match get now db key with
  | Some e => JS.Str (value e)
  | None => JS.Null
  end.

(** The server's answer to the request of an action at time [now]; the
    clock the client reads is the same clock. *)
Definition answer (c : client) (now : Z) (s : server) (a : action)
  : option (server * event) :=
  match a with
  | DateNow _ => Some (s, Clock now)
  | DbWatch keys _ =>
      Some ({| db := db s; watching := keys ++ watching s; dirty := dirty s |},
            Watched None)
  | DbMget keys _ => Some (s, Values None (map (read now (db s)) keys))
  | DbExec cmds _ =>
      if dirty s
      then Some ({| db := db s; watching := []; dirty := false |},
                 Replies None None)
      else
        let '(db1, rs) := exec_commands now (db s) cmds in
        Some ({| db := db1; watching := []; dirty := false |},
              Replies None (Some (map (shape c) rs)))
  | Return _ | OutOfRetries => None
  end.

Definition serve (c : client) (now : Z) (s : server) (a : action)
  : option (server * action) :=
  match answer c now s a with
  | Some (s1, e) =>
      match step a e with
      | Some a1 => Some (s1, a1)
      | None => None
      end
  | None => None
  end.

(** One tick of a run: the time, and what other connections do before
    the request of the action is served. *)
Record tick := { at_time : Z; others : list command }.

(** A run of an action against the server: each tick serves one request
    (or clock reading); the run ends when the action has called back. *)
Fixpoint run (c : client) (ticks : list tick) (s : server) (a : action)
  : server * action :=
  match ticks with
  | [] => (s, a)
  | t :: ticks =>
      match serve c (at_time t) (interfere (at_time t) (others t) s) a with
      | Some (s1, a1) => run c ticks s1 a1
      | None => (s, a)
      end
  end.

(** A run in which nothing else happens and the clock stands at [now]. *)
Definition quiet (now : Z) (n : nat) : list tick :=
  repeat {| at_time := now; others := [] |} n.

Definition fresh (db : gmap string entry) : server :=
  {| db := db; watching := []; dirty := false |}.

End Redis.

(** ** A runtime for the examples

    [StringToNumber] on the strings the store holds after the tracker
    wrote them: decimal digits with an optional sign.  The empty string
    converts to 0.  Every other string is read as NaN here; the
    theorems do not depend on this instance. *)

Module Decimal.

Definition digit (a : Ascii.ascii) : option Z :=
  let n := Z.of_N (Ascii.N_of_ascii a) in
  if (48 <=? n) && (n <=? 57) then Some (n - 48) else None.

Fixpoint digits (acc : Z) (s : string) : option Z :=
  match s with
  | EmptyString => Some acc
  | String a s =>
      match digit a with
      | Some d => digits (10 * acc + d) s
      | None => None
      end
  end.

Definition unsigned (s : string) : option Z :=
  match s with
  | EmptyString => None
  | _ => digits 0 s
  end.

Definition parse (s : string) : JS.number :=
  match s with
  | EmptyString => JS.of_Z 0
  | String (Ascii.Ascii true false true true false true false false) s' =>
      match unsigned s' with
      | Some z => JS.of_Z (- z)
      | None => JS.NaN
      end
  | String (Ascii.Ascii true true false true false true false false) s' =>
      match unsigned s' with
      | Some z => JS.of_Z z
      | None => JS.NaN
      end
  | _ =>
      match unsigned s with
      | Some z => JS.of_Z z
      | None => JS.NaN
      end
  end.

Definition runtime : JS.Runtime := parse.

End Decimal.


(** ** Observations on actions and on runs *)

(** The error an answer of the environment carries, if any. *)
Definition event_error (e : event) : option string :=
  match e with
  | Clock _ => None
  | Watched err => err
  | Values err _ => err
  | Replies err _ => err
  end.

(** [relays a]: at each store request of [a], an error in the answer
    goes to the callback as it is and at once, and [a] hands an error
    to the callback in no other way. *)
Fixpoint relays (a : action) : Prop :=
  match a with
  | Return (Failure _) => False
  | Return (Success _) => True
  | DateNow k => forall now, relays (k now)
  | DbWatch _ k =>
      (forall e, k (Some e) = Return (Failure e)) /\ relays (k None)
  | DbMget _ k =>
      (forall e res, k (Some e) res = Return (Failure e))
      /\ forall res, relays (k None res)
  | DbExec _ k =>
      (forall e res, k (Some e) res = Return (Failure e))
      /\ forall res, relays (k None res)
  | OutOfRetries => True
  end.

(** The outcome is an error, or a result whose remaining is not
    negative and whose reset is a signed 32-bit integer. *)
Definition clamped (o : outcome) : Prop :=
  match o with
  | Success r => 0 <= remaining r /\ - 2 ^ 31 <= reset r < 2 ^ 31
  | Failure _ => True
  end.

(** [confined K a]: every key that a request of [a] watches, reads or
    writes is one of [K], whatever the environment answers. *)
Fixpoint confined (K : list string) (a : action) : Prop :=
  match a with
  | Return _ | OutOfRetries => True
  | DateNow k => forall now, confined K (k now)
  | DbWatch keys k =>
      Forall (fun key => key ∈ K) keys /\ forall err, confined K (k err)
  | DbMget keys k =>
      Forall (fun key => key ∈ K) keys /\ forall err res, confined K (k err res)
  | DbExec cmds k =>
      Forall (fun c => command_key c ∈ K) cmds
      /\ forall err res, confined K (k err res)
  end.

(** One query after the other on one connection, the i-th at the i-th
    time, each served in four ticks with nothing else going on. *)
Fixpoint queries (c : Redis.client) (query : action) (times : list Z)
    (s : Redis.server) : Redis.server * list action :=
  match times with
  | [] => (s, [])
  | t :: times =>
      let '(s1, a) := Redis.run c (Redis.quiet t 4) s query in
      let '(s2, answers) := queries c query times s1 in
      (s2, a :: answers)
  end.

(** ** Sample configurations *)

Module Sample.

(** [new Limiter({id: 'x', db, max: 10, duration: 60000})] and its
    [opts] for [get(1, fn)], in both variants. *)
Definition limiter : Index.Limiter :=
  {| Index.id := "x"; Index.max := 10; Index.duration := 60000;
     Index.prefix := "limit:x:" |}.

Definition opts : Index.Opts :=
  {| Index.count := "limit:x:count";
     Index.reset_key := "limit:x:reset";
     Index.opt_max := 10;
     Index.opt_duration := 60000;
     Index.decrBy := 1 |}.

Definition old_limiter : Part000.Limiter :=
  {| Part000.id := "x"; Part000.max := 10; Part000.duration := 60000;
     Part000.prefix := "limit:x:" |}.


Definition old_opts : Part000.Opts :=
  {| Part000.count := "limit:x:count";
     Part000.limit := "limit:x:limit";
     Part000.reset_key := "limit:x:reset";
     Part000.opt_max := 10;
     Part000.opt_duration := 60000 |}.

(** A clock reading, and a window that ends 60 seconds after it. *)
Definition now : Z := 1700000000123.

Definition window (count : string) : gmap string Redis.entry :=
  <["limit:x:count" := {| Redis.value := count;
                          Redis.expire_at := Some 1700000060123 |}]>
  (<["limit:x:reset" := {| Redis.value := "1700000060";
                           Redis.expire_at := Some 1700000060123 |}]> ∅).

(** The same window as the variant with a limit key leaves it, created by an
    instance whose maximum is 20. *)
Definition old_window (count : string) : gmap string Redis.entry :=
  <["limit:x:limit" := {| Redis.value := "20";
                          Redis.expire_at := Some 1700000060123 |}]>
  (window count).

(** Eight ticks of a query: while it is between its read and its
    transaction, another tracker creates the window. *)
Definition race : list Redis.tick :=
  Redis.quiet now 3
  ++ [ {| Redis.at_time := now;
          Redis.others := [ SET "limit:x:count" 10 60000 NX;
                            SET "limit:x:reset" 1700000060 60000 NX ] |} ]
  ++ Redis.quiet now 4.


(** What a committed transaction of two commands replies, bare. *)
Definition committed : option (list JS.value) :=
  Some [JS.Bare (JS.Prim (JS.Str "OK")); JS.Bare (JS.Prim (JS.Num (JS.of_Z 1)))].

End Sample.

(** * Properties *)

(** ** The 32-bit coercions *)

Section coercion_facts.
Context `{JS.Runtime}.

Lemma wrap32_range z : - 2 ^ 31 <= JS.wrap32 z < 2 ^ 31.
Proof.
  unfold JS.wrap32.
  pose proof (Z.mod_pos_bound (z + 2 ^ 31) (2 ^ 32) eq_refl). lia.
Qed.

Lemma wrap32_small z : - 2 ^ 31 <= z < 2 ^ 31 -> JS.wrap32 z = z.
Proof.
  intros Hz. unfold JS.wrap32.
  rewrite Z.mod_small by lia. lia.
Qed.


Lemma ToInt32_range x : - 2 ^ 31 <= JS.ToInt32 x < 2 ^ 31.
Proof.
  destruct x as [| b | q]; simpl; try lia. apply wrap32_range.
Qed.

Lemma truncate_of_Z z : JS.truncate (inject_Z z) = z.
Proof. unfold JS.truncate, inject_Z. simpl. apply Z.quot_1_r. Qed.

Lemma ToInt32_of_Z z : JS.ToInt32 (JS.of_Z z) = JS.wrap32 z.
Proof. unfold JS.of_Z. simpl. now rewrite truncate_of_Z. Qed.

Lemma bitnot_bitnot x : JS.bitnot (JS.of_Z (JS.bitnot x)) = JS.ToInt32 x.
Proof.
  unfold JS.bitnot. rewrite ToInt32_of_Z.
  pose proof (ToInt32_range x) as Hx.
  rewrite wrap32_small by (unfold Z.lnot; lia).
  apply Z.lnot_involutive.
Qed.

Lemma double_bitnot_ToInt32 p :
  JS.double_bitnot p = JS.ToInt32 (JS.ToNumber p).
Proof. apply bitnot_bitnot. Qed.

Lemma bitor_zero x : JS.bitor x (JS.of_Z 0) = JS.ToInt32 x.
Proof. unfold JS.bitor. rewrite ToInt32_of_Z. apply Z.lor_0_r. Qed.

Lemma reset_epoch x :
  JS.bitor (JS.divide x 1000) (JS.of_Z 0) = JS.wrap32 (Z.quot x 1000).
Proof. rewrite bitor_zero. reflexivity. Qed.

Lemma reset_epoch_floor x :
  0 <= x < 2 ^ 31 * 1000 ->
  JS.bitor (JS.divide x 1000) (JS.of_Z 0) = x / 1000.
Proof.
  intros Hx. rewrite reset_epoch.
  rewrite Z.quot_div_nonneg by lia.
  apply wrap32_small.
  pose proof (Z.div_pos x 1000).
  assert (x / 1000 < 2 ^ 31) by (apply Z.div_lt_upper_bound; lia).
  lia.
Qed.
End coercion_facts.

(** ** Decrement: parsing, commit, exhaustion *)

Section decrement.
Context `{JS.Runtime}.

(** Truncation is toward zero: the integer kept lies between zero and
    the value, less than one away from it. *)
Lemma truncate_toward_zero q :
  (0 <= Qnum q ->
     0 <= JS.truncate q /\
     JS.truncate q * Z.pos (Qden q) <= Qnum q < (JS.truncate q + 1) * Z.pos (Qden q)) /\
  (Qnum q <= 0 ->
     JS.truncate q <= 0 /\
     (JS.truncate q - 1) * Z.pos (Qden q) < Qnum q <= JS.truncate q * Z.pos (Qden q)).
Proof.
  unfold JS.truncate. set (d := Z.pos (Qden q)). assert (0 < d) by (subst d; lia).
  split; intros Hq.
  - rewrite Z.quot_div_nonneg by lia.
    pose proof (Z.div_pos (Qnum q) d Hq ltac:(lia)).
    pose proof (Z.mul_div_le (Qnum q) d ltac:(lia)).
    pose proof (Z.mul_succ_div_gt (Qnum q) d ltac:(lia)).
    nia.
  - assert (Hquot : Qnum q ÷ d = - ((- Qnum q) / d)).
    { rewrite <- (Z.quot_div_nonneg (- Qnum q) d) by lia.
      rewrite Z.quot_opp_l by lia. lia. }
    rewrite Hquot.
    pose proof (Z.div_pos (- Qnum q) d ltac:(lia) ltac:(lia)).
    pose proof (Z.mul_div_le (- Qnum q) d ltac:(lia)).
    pose proof (Z.mul_succ_div_gt (- Qnum q) d ltac:(lia)).
    nia.
Qed.


(** With quota left, the transaction is queued. *)
Lemma decr_writes retry opts res dateNow :
  0 < JS.double_bitnot (JS.at_prim res 0) ->
  exists k,
    step (Index.decr retry opts res) (Clock dateNow)
    = Some (DbExec (Index.decr_multi opts
                      (JS.double_bitnot (JS.at_prim res 0) - Index.decrBy opts)
                      (JS.double_bitnot (JS.at_prim res 1)) dateNow) k)
    /\ forall err replies,
         k err replies =
         match err with
         | Some e => Return (Failure e)
         | None =>
             if Index.isFirstReplyNull replies then retry
             else Index.done opts
                    (JS.double_bitnot (JS.at_prim res 0) - Index.decrBy opts)
                    (JS.double_bitnot (JS.at_prim res 1))
         end.
Proof.
  intros Hn. simpl.
  destruct (Z.leb_spec (JS.double_bitnot (JS.at_prim res 0)) 0); [lia |].
  eexists. split; [reflexivity |]. reflexivity.
Qed.
End decrement.

(** ** The branch of Probe *)

Section probe.
Context `{JS.Runtime}.

Lemma mget_unfold retries opts :
  Index.mget retries opts =
  DbWatch [Index.count opts] (fun err =>
    match err with
    | Some e => Return (Failure e)
    | None =>
        DbMget [Index.count opts; Index.reset_key opts] (fun err res =>
          match err with
          | Some e => Return (Failure e)
          | None =>
              if Index.absent (JS.at_prim res 0)
              then Index.create (Index.restart retries opts) opts
              else Index.decr (Index.restart retries opts) opts res
          end)
    end).
Proof. destruct retries; reflexivity. Qed.

Lemma mget_branch retries opts res :
  steps (Index.mget retries opts) [Watched None; Values None res]
  = Some (if Index.absent (JS.at_prim res 0)
          then Index.create (Index.restart retries opts) opts
          else Index.decr (Index.restart retries opts) opts res).
Proof. destruct retries; reflexivity. Qed.

Lemma steps_app a es1 es2 :
  steps a (es1 ++ es2) =
  match steps a es1 with
  | Some a' => steps a' es2
  | None => None
  end.
Proof.
  revert a. induction es1 as [| e es1 IH]; intros a; simpl; [reflexivity |].
  destruct (step a e); [apply IH | reflexivity].
Qed.

(** The values the test sends to Initialize. *)
Lemma absent_cases p :
  Index.absent p = true <->
  p = JS.Undefined \/ p = JS.Null \/ p = JS.Bool false
  \/ p = JS.Num JS.NaN \/ p = JS.Str "".
Proof.
  unfold Index.absent. split.
  - destruct p as [| | [] | [| b | q] | s]; simpl; intros Hp; try discriminate; auto.
    + destruct (Qnum q =? 0); discriminate.
    + destruct s; [auto 6 | discriminate].
  - intros [-> | [-> | [-> | [-> | ->]]]]; reflexivity.
Qed.

End probe.

(** ** Claims about Decrement *)





(** C9.  The write of Decrement is not guarded on its expiration: when
    the reset read satisfies ex*1000 <= now, [decr] (with quota left)
    still queues its transaction, with the zero or negative expiration
    ex*1000 − now on the SET of the count and on the PEXPIRE of the
    reset; it neither calls back nor restarts instead. *)
Theorem C9_decrement_ttl_unguarded `{JS.Runtime} retry opts res dateNow :
  let n := JS.double_bitnot (JS.at_prim res 0) in
  let ex := JS.double_bitnot (JS.at_prim res 1) in
  0 < n ->
  ex * 1000 <= dateNow ->
  exists a,
    step (Index.decr retry opts res) (Clock dateNow) = Some a
    /\ pending_exec a
       = Some [ SET (Index.count opts) (n - Index.decrBy opts)
                    (ex * 1000 - dateNow) XX;
                PEXPIRE (Index.reset_key opts) (ex * 1000 - dateNow) ]
    /\ ex * 1000 - dateNow <= 0.
Proof.
  intros n ex Hn Hex.
  destruct (decr_writes retry opts res dateNow Hn) as (k & Hstep & _).
  eexists. split; [exact Hstep |]. split; [reflexivity | lia].
Qed.

Lemma C9_witness :
  exists a,
    step (@Index.decr Decimal.runtime OutOfRetries Sample.opts
            [JS.Str "7"; JS.Str "1700000000"]) (Clock Sample.now) = Some a
    /\ pending_exec a
       = Some [ SET "limit:x:count" 6 (-123) XX; PEXPIRE "limit:x:reset" (-123) ].
Proof.
  destruct (@C9_decrement_ttl_unguarded Decimal.runtime OutOfRetries Sample.opts
              [JS.Str "7"; JS.Str "1700000000"] Sample.now)
    as (a & Hstep & Hexec & _).
  - vm_compute. reflexivity.
  - vm_compute. discriminate.
  - exists a. split; [exact Hstep | exact Hexec].
Defined.

(** ** Outcomes under every environment *)

Lemma always_steps P a es o :
  always P a -> steps a es = Some (Return o) -> P o.
Proof.
  revert a. induction es as [| e es IH]; intros a Ha Hsteps; simpl in Hsteps.
  - injection Hsteps as ->. exact Ha.
  - destruct (step a e) as [a' |] eqn:Hstep; [| discriminate].
    apply (IH a'); [| exact Hsteps].
    destruct a, e; simpl in Hstep; try discriminate;
      injection Hstep as <-; apply Ha.
Qed.

Section totals.
Context `{JS.Runtime}.

Lemma create_reports retry opts :
  always (reports (Index.opt_max opts)) retry ->
  always (reports (Index.opt_max opts)) (Index.create retry opts).
Proof.
  intros Hretry now [e |] replies; simpl; [exact I |].
  destruct (Index.isFirstReplyNull replies); [exact Hretry | reflexivity].
Qed.

Lemma decr_reports retry opts res :
  always (reports (Index.opt_max opts)) retry ->
  always (reports (Index.opt_max opts)) (Index.decr retry opts res).
Proof.
  intros Hretry dateNow. simpl.
  destruct (JS.double_bitnot (JS.at_prim res 0) <=? 0); [reflexivity |].
  intros [e |] replies; simpl; [exact I |].
  destruct (Index.isFirstReplyNull replies); [exact Hretry | reflexivity].
Qed.

Lemma mget_reports retries opts :
  always (reports (Index.opt_max opts)) (Index.mget retries opts).
Proof.
  induction retries as [| r IH]; simpl.
  - intros [e |]; simpl; [exact I |]. intros [e |] res; simpl; [exact I |].
    destruct (Index.absent (JS.at_prim res 0));
      [apply create_reports | apply decr_reports]; exact I.
  - intros [e |]; simpl; [exact I |]. intros [e |] res; simpl; [exact I |].
    destruct (Index.absent (JS.at_prim res 0));
      [apply create_reports | apply decr_reports]; exact IH.
Qed.
End totals.

(** C7.  In [src/index.js] every result of [query],
    whatever the store answers, carries total = the maximum configured
    in the querying instance, so two instances with different maxima
    never report the same total.  In [src/unnamed/part_000] a query
    against an existing window reports instead the value parsed from
    the [limit] key it read. *)
Theorem C7_total_is_own_maximum `{JS.Runtime} :
  (forall retries self decrBy es r,
      steps (Index.get retries self decrBy) es = Some (Return (Success r)) ->
      total r = Index.max self)
  /\ (forall retries1 retries2 self1 self2 decrBy1 decrBy2 es1 es2 r1 r2,
      Index.max self1 <> Index.max self2 ->
      steps (Index.get retries1 self1 decrBy1) es1 = Some (Return (Success r1)) ->
      steps (Index.get retries2 self2 decrBy2) es2 = Some (Return (Success r2)) ->
      total r1 <> total r2)
  /\ (forall retry opts res dateNow replies,
      let n := JS.double_bitnot (JS.at_prim res 0) in
      let stored := JS.double_bitnot (JS.at_prim res 1) in
      (n <= 0 ->
       exists r, step (Part000.decr retry opts res) (Clock dateNow)
                 = Some (Return (Success r)) /\ total r = stored)
      /\ (0 < n -> Part000.isFirstReplyNull replies = false ->
          exists r, steps (Part000.decr retry opts res)
                          [Clock dateNow; Replies None replies]
                    = Some (Return (Success r)) /\ total r = stored)).
Proof.
  assert (Hown : forall retries self decrBy es r,
             steps (Index.get retries self decrBy) es = Some (Return (Success r)) ->
             total r = Index.max self).
  { intros retries self decrBy es r Hsteps.
    apply (always_steps _ _ _ _ (mget_reports retries _) Hsteps). }
  split; [exact Hown |]. split.
  - intros retries1 retries2 self1 self2 decrBy1 decrBy2 es1 es2 r1 r2 Hne H1 H2.
    rewrite (Hown _ _ _ _ _ H1), (Hown _ _ _ _ _ H2). exact Hne.
  - intros retry opts res dateNow replies n stored. split.
    + intros Hn. eexists. simpl. fold n.
      destruct (Z.leb_spec n 0); [| lia]. split; reflexivity.
    + intros Hn Hcommit. eexists. simpl. fold n.
      destruct (Z.leb_spec n 0); [lia |]. simpl. rewrite Hcommit.
      split; reflexivity.
Qed.

Lemma C7_witness :
  total {| total := 10; remaining := 6; reset := 1700000060 |}
  = Index.max Sample.limiter.
Proof.
  apply (proj1 (@C7_total_is_own_maximum Decimal.runtime) O Sample.limiter None
           [Watched None; Values None [JS.Str "7"; JS.Str "1700000060"];
            Clock Sample.now; Replies None Sample.committed]).
  vm_compute. reflexivity.
Defined.

(** The variant of [Part000], configured with maximum 10, queries a window
    whose [limit] key holds 20: it reports total 20, not its own 10. *)
Lemma C7_part000_reports_stored_limit :
  exists r,
    (Redis.run Redis.node_redis (Redis.quiet Sample.now 4)
       (Redis.fresh (Sample.old_window "7"))
       (@Part000.get Decimal.runtime 0 Sample.old_limiter)).2
    = Return (Success r)
    /\ total r = 20
    /\ Part000.max Sample.old_limiter = 10
    /\ total r <> Part000.max Sample.old_limiter.
Proof. eexists. vm_compute. repeat split. discriminate. Qed.

(** ** Claims about the restart *)

(** C4.  When the transaction of Initialize or of Decrement reports no
    effect (no replies, no first reply, a falsy first reply, or a first
    [[err, value]] pair whose value is falsy), [query] hands no error to
    its caller: it goes on as a new [mget], which watches the count key
    and reads both keys again, and what follows depends on the later
    answers only, not on the values read before or on the clock read
    before. *)
Theorem C4_no_effect_restarts `{JS.Runtime} retries opts res now replies es :
  (replies = None
   \/ replies = Some []
   \/ (exists first rest, replies = Some (JS.Bare first :: rest)
                          /\ JS.ToBoolean_scalar first = false)
   \/ (exists entry rest, replies = Some (JS.Array entry :: rest)
                          /\ JS.ToBoolean_scalar (JS.at_scalar entry 1) = false)) ->
  (Index.absent (JS.at_prim res 0) = true
   \/ 0 < JS.double_bitnot (JS.at_prim res 0)) ->
  Index.isFirstReplyNull replies = true
  /\ steps (Index.mget (S retries) opts)
           [Watched None; Values None res; Clock now; Replies None replies]
     = Some (Index.mget retries opts)
  /\ steps (Index.mget (S retries) opts)
           (Watched None :: Values None res :: Clock now :: Replies None replies :: es)
     = steps (Index.mget retries opts) es
  /\ exists k, Index.mget retries opts = DbWatch [Index.count opts] k
     /\ exists k', k None = DbMget [Index.count opts; Index.reset_key opts] k'.
Proof.
  intros Hsignal Hwrote.
  assert (Hnull : Index.isFirstReplyNull replies = true).
  { destruct Hsignal as [-> | [-> | [(first & rest & -> & Hf) | (entry & rest & -> & He)]]];
      simpl; try reflexivity.
    - now rewrite Hf.
    - now rewrite He. }
  assert (Hround : steps (Index.mget (S retries) opts)
                         [Watched None; Values None res; Clock now; Replies None replies]
                   = Some (Index.mget retries opts)).
  { change [Watched None; Values None res; Clock now; Replies None replies]
      with ([Watched None; Values None res] ++ [Clock now; Replies None replies]).
    rewrite steps_app, mget_branch.
    destruct (Index.absent (JS.at_prim res 0)) eqn:Habsent.
    - simpl. now rewrite Hnull.
    - destruct Hwrote as [Hw | Hn]; [discriminate |].
      cbn [steps].
      destruct (decr_writes (Index.restart (S retries) opts) opts res now Hn)
        as (k & -> & Hk).
      cbn [step]. now rewrite Hk, Hnull. }
  split; [exact Hnull |]. split; [exact Hround |]. split.
  - change (Watched None :: Values None res :: Clock now :: Replies None replies :: es)
      with ([Watched None; Values None res; Clock now; Replies None replies] ++ es).
    now rewrite steps_app, Hround.
  - destruct retries; simpl; eexists; (split; [reflexivity |]); eexists; reflexivity.
Qed.

Lemma C4_witness :
  steps (@Index.mget Decimal.runtime 1 Sample.opts)
        [Watched None; Values None [JS.Null; JS.Null]; Clock Sample.now;
         Replies None (Some [JS.Array [JS.Prim JS.Null; JS.Prim JS.Null];
                             JS.Array [JS.Prim JS.Null; JS.Prim JS.Null]])]
  = Some (@Index.mget Decimal.runtime 0 Sample.opts).
Proof.
  refine (proj1 (proj2 (@C4_no_effect_restarts Decimal.runtime 0 Sample.opts
                          [JS.Null; JS.Null] Sample.now
                          (Some [JS.Array [JS.Prim JS.Null; JS.Prim JS.Null];
                                 JS.Array [JS.Prim JS.Null; JS.Prim JS.Null]])
                          [] _ _))).
  - right. right. right. eexists. eexists. split; reflexivity.
  - left. reflexivity.
Defined.

(** ** The store *)

Section store_facts.
Context `{JS.Runtime}.

Lemma keys_distinct (prefix : string) :
  prefix +:+ "count" <> prefix +:+ "reset"
  /\ prefix +:+ "count" <> prefix +:+ "limit"
  /\ prefix +:+ "limit" <> prefix +:+ "reset".
Proof.
  induction prefix as [| a p (IH1 & IH2 & IH3)]; simpl.
  - repeat split; discriminate.
  - repeat split; intros Heq; injection Heq; assumption.
Qed.

Lemma read_Null now (db : gmap string Redis.entry) key :
  Redis.read now db key = JS.Null <-> Redis.get now db key = None.
Proof.
  unfold Redis.read. destruct (Redis.get now db key); split; congruence.
Qed.


Lemma get_insert_ne now (db : gmap string Redis.entry) key key' e :
  key <> key' -> Redis.get now (<[key := e]> db) key' = Redis.get now db key'.
Proof. intros Hne. unfold Redis.get. now rewrite lookup_insert_ne. Qed.

(** A run with nothing pending from other connections serves the
    request on the server as it is. *)
Lemma run_quiet_tick c now ticks s a :
  Redis.run c ({| Redis.at_time := now; Redis.others := [] |} :: ticks) s a
  = match Redis.serve c now s a with
    | Some (s1, a1) => Redis.run c ticks s1 a1
    | None => (s, a)
    end.
Proof. reflexivity. Qed.

Lemma run_Return c ticks s o : Redis.run c ticks s (Return o) = (s, Return o).
Proof. destruct ticks; reflexivity. Qed.

(** Probe against the store: the watch is recorded, the two keys are
    read, and the branch is taken on what was read. *)
Lemma run_probe c retries opts t1 t2 ticks s :
  Redis.run c ({| Redis.at_time := t1; Redis.others := [] |}
               :: {| Redis.at_time := t2; Redis.others := [] |} :: ticks)
            s (Index.mget retries opts)
  = let res := [Redis.read t2 (Redis.db s) (Index.count opts);
                Redis.read t2 (Redis.db s) (Index.reset_key opts)] in
    Redis.run c ticks
      {| Redis.db := Redis.db s;
         Redis.watching := [Index.count opts] ++ Redis.watching s;
         Redis.dirty := Redis.dirty s |}
      (if Index.absent (JS.at_prim res 0)
       then Index.create (Index.restart retries opts) opts
       else Index.decr (Index.restart retries opts) opts res).
Proof. rewrite mget_unfold. reflexivity. Qed.

Lemma run_probe_old c retries opts t1 t2 ticks s :
  Redis.run c ({| Redis.at_time := t1; Redis.others := [] |}
               :: {| Redis.at_time := t2; Redis.others := [] |} :: ticks)
            s (Part000.mget retries opts)
  = let res := [Redis.read t2 (Redis.db s) (Part000.count opts);
                Redis.read t2 (Redis.db s) (Part000.limit opts);
                Redis.read t2 (Redis.db s) (Part000.reset_key opts)] in
    Redis.run c ticks
      {| Redis.db := Redis.db s;
         Redis.watching := [Part000.count opts] ++ Redis.watching s;
         Redis.dirty := Redis.dirty s |}
      (if Part000.absent (JS.at_prim res 0)
       then Part000.create (Part000.restart retries opts) opts
       else Part000.decr (Part000.restart retries opts) opts res).
Proof. destruct retries; reflexivity. Qed.
End store_facts.



(** The creation race: the transaction of the loser is refused, it
    probes again, finds the window of the winner and decrements it. *)
Example creation_race :
  exists s',
    Redis.run Redis.node_redis Sample.race (Redis.fresh ∅)
              (@Index.get Decimal.runtime 1 Sample.limiter None)
    = (s', Return (Success {| total := 10; remaining := 9; reset := 1700000060 |}))
    /\ Redis.db s' !! "limit:x:count"
       = Some {| Redis.value := "9"; Redis.expire_at := Some 1700000060000 |}.
Proof. eexists. vm_compute. split; reflexivity. Qed.

(** ** Claims about Probe and Initialize *)

(** C5.  After the watch and the read, [mget] goes to
    Initialize exactly when the value read for the count is falsy and
    is not the number 0, that is when it is undefined, null, false, NaN
    or the empty string, and to Decrement otherwise.  Read from the
    store, that is exactly when the count key is absent or holds the
    empty string.  A count of 0 or of ["0"] goes to Decrement. *)
Theorem C5_probe_branch `{JS.Runtime} retries opts res :
  steps (Index.mget retries opts) [Watched None; Values None res]
  = Some (if Index.absent (JS.at_prim res 0)
          then Index.create (Index.restart retries opts) opts
          else Index.decr (Index.restart retries opts) opts res)
  /\ (Index.absent (JS.at_prim res 0) = true <->
      JS.at_prim res 0 = JS.Undefined \/ JS.at_prim res 0 = JS.Null
      \/ JS.at_prim res 0 = JS.Bool false \/ JS.at_prim res 0 = JS.Num JS.NaN
      \/ JS.at_prim res 0 = JS.Str "")
  /\ (forall now (db : gmap string Redis.entry) key,
      Index.absent (Redis.read now db key) = true <->
      Redis.get now db key = None
      \/ exists e, Redis.get now db key = Some e /\ Redis.value e = "")
  /\ Index.absent (JS.Num (JS.of_Z 0)) = false
  /\ Index.absent (JS.Str "0") = false.
Proof.
  split; [apply mget_branch |]. split; [apply absent_cases |].
  split; [| split; reflexivity].
  intros now db key. unfold Redis.read.
  destruct (Redis.get now db key) as [e |]; simpl.
  - rewrite absent_cases. split.
    + intros [Hp | [Hp | [Hp | [Hp | Hp]]]]; try discriminate.
      injection Hp as Hv. right. now exists e.
    + intros [Hnone | (e' & He' & Hv)]; [discriminate |].
      injection He' as <-. rewrite Hv. auto 6.
  - split; [now left | reflexivity].
Qed.

(** A count key that is present and holds the empty string: the query
    goes to Initialize and queues the creation transaction. *)
Lemma C5_empty_count_initializes :
  Redis.get Sample.now (Sample.window "") "limit:x:count"
  = Some {| Redis.value := ""; Redis.expire_at := Some 1700000060123 |}
  /\ pending_exec
       (Redis.run Redis.node_redis (Redis.quiet Sample.now 3)
          (Redis.fresh (Sample.window ""))
          (@Index.get Decimal.runtime 0 Sample.limiter None)).2
     = Some [ SET "limit:x:count" 10 60000 NX;
              SET "limit:x:reset" 1700000060 60000 NX ].
Proof. split; vm_compute; reflexivity. Qed.

Section transactions.
Context `{JS.Runtime}.

Lemma exec_SET_absent now (db : gmap string Redis.entry) key v px :
  0 < px -> Redis.get now db key = None ->
  Redis.exec_command now db (SET key v px NX)
  = (<[key := {| Redis.value := JS.NumberToString v;
                 Redis.expire_at := Some (now + px) |}]> db, Redis.Ok)
  /\ Redis.exec_command now db (SET key v px XX) = (db, Redis.Nil).
Proof.
  intros Hpx Hget. simpl. rewrite Hget.
  destruct (Z.leb_spec px 0); [lia | split; reflexivity].
Qed.

Lemma exec_SET_present now (db : gmap string Redis.entry) key v px e :
  0 < px -> Redis.get now db key = Some e ->
  Redis.exec_command now db (SET key v px NX) = (db, Redis.Nil)
  /\ Redis.exec_command now db (SET key v px XX)
     = (<[key := {| Redis.value := JS.NumberToString v;
                    Redis.expire_at := Some (now + px) |}]> db, Redis.Ok).
Proof.
  intros Hpx Hget. simpl. rewrite Hget.
  destruct (Z.leb_spec px 0); [lia | split; reflexivity].
Qed.

Lemma exec_SET_refused now (db : gmap string Redis.entry) key v px cond :
  px <= 0 ->
  exists m, Redis.exec_command now db (SET key v px cond) = (db, Redis.Err m).
Proof.
  intros Hpx. simpl. destruct (Z.leb_spec px 0); [| lia]. eexists. reflexivity.
Qed.

(** A command leaves the other keys as they are. *)
Lemma exec_command_frame now (db : gmap string Redis.entry) c key :
  command_key c <> key ->
  (Redis.exec_command now db c).1 !! key = db !! key.
Proof.
  intros Hne. destruct c as [k v px cond | k ms]; simpl in *.
  - destruct (px <=? 0); [reflexivity |].
    destruct cond, (Redis.get now db k); simpl;
      rewrite ?lookup_insert_ne by exact Hne; reflexivity.
  - destruct (Redis.get now db k); [| reflexivity].
    destruct (ms <=? 0); simpl;
      rewrite ?lookup_insert_ne, ?lookup_delete_ne by exact Hne; reflexivity.
Qed.



(** The callback of a transaction whose first command took effect
    sees a first reply that is not null, with either client. *)
Lemma first_Ok_not_null c rs :
  Index.isFirstReplyNull (Some (map (Redis.shape c) (Redis.Ok :: rs))) = false.
Proof. destruct c; reflexivity. Qed.

Lemma first_Nil_null c rs :
  Index.isFirstReplyNull (Some (map (Redis.shape c) (Redis.Nil :: rs))) = true.
Proof. destruct c; reflexivity. Qed.

(** Initialize against the store. *)
Lemma run_create c retry opts t3 t4 ticks s :
  Redis.dirty s = false ->
  Redis.run c ({| Redis.at_time := t3; Redis.others := [] |}
               :: {| Redis.at_time := t4; Redis.others := [] |} :: ticks)
            s (Index.create retry opts)
  = let ex := JS.bitor (JS.divide (t3 + Index.opt_duration opts) 1000) (JS.of_Z 0) in
    let adjustedMax := Z.max (Index.opt_max opts - (Index.decrBy opts - 1)) 0 in
    let result := Redis.exec_commands t4 (Redis.db s)
                    (Index.create_multi opts adjustedMax ex) in
    Redis.run c ticks
      {| Redis.db := result.1; Redis.watching := []; Redis.dirty := false |}
      (if Index.isFirstReplyNull (Some (map (Redis.shape c) result.2)) then retry
       else Return (Success {| total := Index.opt_max opts;
                               remaining := adjustedMax;
                               reset := ex |})).
Proof.
  intros Hdirty. rewrite run_quiet_tick.
  cbn [Redis.serve Redis.answer Index.create step].
  rewrite run_quiet_tick.
  unfold Redis.serve, Redis.answer. rewrite Hdirty.
  destruct (Redis.exec_commands _ _ _) as [db1 rs]. reflexivity.
Qed.
End transactions.





(** ** Claims about the expirations *)

Section expirations.
Context `{JS.Runtime}.

Lemma exec_PEXPIRE now (db : gmap string Redis.entry) key ms :
  Redis.exec_command now db (PEXPIRE key ms)
  = match Redis.get now db key with
    | None => (db, Redis.Int 0)
    | Some e =>
        if ms <=? 0 then (delete key db, Redis.Int 1)
        else (<[key := {| Redis.value := Redis.value e;
                          Redis.expire_at := Some (now + ms) |}]> db, Redis.Int 1)
    end.
Proof. reflexivity. Qed.

End expirations.



(** ** The two variants side by side *)

Section variants.
Context `{JS.Runtime}.


Lemma run_create_old c retry opts t3 t4 ticks s :
  Redis.dirty s = false ->
  Redis.run c ({| Redis.at_time := t3; Redis.others := [] |}
               :: {| Redis.at_time := t4; Redis.others := [] |} :: ticks)
            s (Part000.create retry opts)
  = let ex := JS.bitor (JS.divide (t3 + Part000.opt_duration opts) 1000) (JS.of_Z 0) in
    let result := Redis.exec_commands t4 (Redis.db s) (Part000.create_multi opts ex) in
    Redis.run c ticks
      {| Redis.db := result.1; Redis.watching := []; Redis.dirty := false |}
      (if Part000.isFirstReplyNull (Some (map (Redis.shape c) result.2)) then retry
       else Return (Success {| total := Part000.opt_max opts;
                               remaining := Part000.opt_max opts;
                               reset := ex |})).
Proof.
  intros Hdirty. rewrite run_quiet_tick.
  cbn [Redis.serve Redis.answer Part000.create step].
  rewrite run_quiet_tick.
  unfold Redis.serve, Redis.answer. rewrite Hdirty.
  destruct (Redis.exec_commands _ _ _) as [db1 rs]. reflexivity.
Qed.

Lemma run_decr c retry opts res t3 t4 ticks s :
  Redis.dirty s = false ->
  0 < JS.double_bitnot (JS.at_prim res 0) ->
  Redis.run c ({| Redis.at_time := t3; Redis.others := [] |}
               :: {| Redis.at_time := t4; Redis.others := [] |} :: ticks)
            s (Index.decr retry opts res)
  = let n := JS.double_bitnot (JS.at_prim res 0) - Index.decrBy opts in
    let ex := JS.double_bitnot (JS.at_prim res 1) in
    let result := Redis.exec_commands t4 (Redis.db s) (Index.decr_multi opts n ex t3) in
    Redis.run c ticks
      {| Redis.db := result.1; Redis.watching := []; Redis.dirty := false |}
      (if Index.isFirstReplyNull (Some (map (Redis.shape c) result.2)) then retry
       else Index.done opts n ex).
Proof.
  intros Hdirty Hn. rewrite run_quiet_tick.
  cbn [Redis.serve Redis.answer Index.decr step].
  destruct (Z.leb_spec (JS.double_bitnot (JS.at_prim res 0)) 0); [lia |].
  rewrite run_quiet_tick.
  unfold Redis.serve, Redis.answer. rewrite Hdirty.
  destruct (Redis.exec_commands _ _ _) as [db1 rs]. reflexivity.
Qed.

Lemma run_decr_old c retry opts res t3 t4 ticks s :
  Redis.dirty s = false ->
  0 < JS.double_bitnot (JS.at_prim res 0) ->
  Redis.run c ({| Redis.at_time := t3; Redis.others := [] |}
               :: {| Redis.at_time := t4; Redis.others := [] |} :: ticks)
            s (Part000.decr retry opts res)
  = let n := JS.double_bitnot (JS.at_prim res 0) in
    let max := JS.double_bitnot (JS.at_prim res 1) in
    let ex := JS.double_bitnot (JS.at_prim res 2) in
    let result := Redis.exec_commands t4 (Redis.db s) (Part000.decr_multi opts n ex t3) in
    Redis.run c ticks
      {| Redis.db := result.1; Redis.watching := []; Redis.dirty := false |}
      (if Part000.isFirstReplyNull (Some (map (Redis.shape c) result.2)) then retry
       else Part000.done max (n - 1) ex).
Proof.
  intros Hdirty Hn. rewrite run_quiet_tick.
  cbn [Redis.serve Redis.answer Part000.decr step].
  destruct (Z.leb_spec (JS.double_bitnot (JS.at_prim res 0)) 0); [lia |].
  rewrite run_quiet_tick.
  unfold Redis.serve, Redis.answer. rewrite Hdirty.
  destruct (Redis.exec_commands _ _ _) as [db1 rs]. reflexivity.
Qed.

End variants.

Section variants_agree.
Context `{JS.Runtime}.

Lemma first_of_exec now (db : gmap string Redis.entry) c cs :
  nth 0 (Redis.exec_commands now db (c :: cs)).2 Redis.Nil
  = (Redis.exec_command now db c).2.
Proof.
  cbn [Redis.exec_commands].
  destruct (Redis.exec_command now db c) as [db1 r].
  destruct (Redis.exec_commands now db1 cs) as [db2 rs]. reflexivity.
Qed.

Lemma committed_not_null c rs :
  nth 0 rs Redis.Nil = Redis.Ok ->
  Index.isFirstReplyNull (Some (map (Redis.shape c) rs)) = false.
Proof.
  destruct rs as [| r rs]; simpl; [discriminate |].
  intros ->. apply first_Ok_not_null.
Qed.

Lemma absent_Str s : Index.absent (JS.Str s) = false <-> s <> "".
Proof.
  destruct s; cbn; split; intros Hs; try reflexivity; try discriminate.
  now contradict Hs.
Qed.
End variants_agree.




(** * Further properties of the two files *)

(** ** Errors of the store *)

Section relaying.
Context `{JS.Runtime}.

Lemma relays_steps a es e :
  relays a ->
  steps a es = Some (Return (Failure e)) ->
  exists before last,
    es = before ++ [last]
    /\ event_error last = Some e
    /\ Forall (fun ev => event_error ev = None) before.
Proof.
  revert a. induction es as [| ev es IH]; intros a Ha Hsteps; simpl in Hsteps.
  - injection Hsteps as ->. destruct Ha.
  - destruct (step a ev) as [a' |] eqn:Hstep; [| discriminate].
    assert (Hnext : (event_error ev = None /\ relays a')
                    \/ (event_error ev = Some e /\ es = []
                        /\ a' = Return (Failure e))
                    \/ (exists e', a' = Return (Failure e') /\ e' <> e)).
    { destruct a as [o | k | keys k | keys k | cmds k |], ev as [now | err | err res | err res];
        simpl in Hstep; try discriminate; injection Hstep as <-.
      - left. split; [reflexivity | apply Ha].
      - destruct Ha as (Herr & Hok). destruct err as [e' |]; [| now left].
        rewrite Herr in *. destruct es; simpl in Hsteps; [| discriminate].
        injection Hsteps as ->. right. left. auto.
      - destruct Ha as (Herr & Hok). destruct err as [e' |]; [| left; split; [reflexivity | apply Hok]].
        rewrite Herr in *. destruct es; simpl in Hsteps; [| discriminate].
        injection Hsteps as ->. right. left. auto.
      - destruct Ha as (Herr & Hok). destruct err as [e' |]; [| left; split; [reflexivity | apply Hok]].
        rewrite Herr in *. destruct es; simpl in Hsteps; [| discriminate].
        injection Hsteps as ->. right. left. auto. }
    destruct Hnext as [(Hnone & Ha') | [(Hsome & -> & _) | (e' & -> & Hne)]].
    + destruct (IH a' Ha' Hsteps) as (before & last & -> & Hlast & Hbefore).
      exists (ev :: before), last. split; [reflexivity |]. split; [exact Hlast |].
      constructor; assumption.
    + exists [], ev. repeat split; [exact Hsome | constructor].
    + destruct es; simpl in Hsteps; [| discriminate].
      injection Hsteps as Heq. congruence.
Qed.

Lemma relays_step a ev a' :
  relays a -> step a ev = Some a' ->
  match event_error ev with
  | Some e => a' = Return (Failure e)
  | None => relays a'
  end.
Proof.
  intros Ha Hstep.
  destruct a as [o | k | keys k | keys k | cmds k |], ev as [now | err | err res | err res];
    simpl in Hstep; try discriminate; injection Hstep as <-; simpl.
  - apply Ha.
  - destruct Ha as (Herr & Hok). destruct err; [apply Herr | exact Hok].
  - destruct Ha as (Herr & Hok). destruct err; [apply Herr | apply Hok].
  - destruct Ha as (Herr & Hok). destruct err; [apply Herr | apply Hok].
Qed.

Lemma relays_ends a es a' ev e a'' :
  relays a ->
  steps a es = Some a' ->
  event_error ev = Some e ->
  step a' ev = Some a'' ->
  a'' = Return (Failure e).
Proof.
  revert a. induction es as [| ev0 es IH]; intros a Ha Hsteps Hev Hstep; simpl in Hsteps.
  - injection Hsteps as <-.
    pose proof (relays_step _ _ _ Ha Hstep) as Hnext. now rewrite Hev in Hnext.
  - destruct (step a ev0) as [a0 |] eqn:Hstep0; [| discriminate].
    pose proof (relays_step _ _ _ Ha Hstep0) as Hnext.
    destruct (event_error ev0) as [e0 |].
    + subst a0. destruct es; simpl in Hsteps; [| discriminate].
      injection Hsteps as <-. discriminate.
    + now apply (IH a0).
Qed.

Lemma create_relays retry opts : relays retry -> relays (Index.create retry opts).
Proof.
  intros Hretry now. simpl. split; [reflexivity |]. intros res.
  destruct (Index.isFirstReplyNull res); [exact Hretry | exact I].
Qed.

Lemma decr_relays retry opts res : relays retry -> relays (Index.decr retry opts res).
Proof.
  intros Hretry now. simpl.
  destruct (JS.double_bitnot (JS.at_prim res 0) <=? 0); [exact I |].
  simpl. split; [reflexivity |]. intros replies.
  destruct (Index.isFirstReplyNull replies); [exact Hretry | exact I].
Qed.

Lemma mget_relays retries opts : relays (Index.mget retries opts).
Proof.
  assert (Hbody : forall retry, relays retry ->
            relays (DbWatch [Index.count opts] (fun err =>
              match err with
              | Some e => Return (Failure e)
              | None =>
                  DbMget [Index.count opts; Index.reset_key opts] (fun err res =>
                    match err with
                    | Some e => Return (Failure e)
                    | None =>
                        if Index.absent (JS.at_prim res 0)
                        then Index.create retry opts
                        else Index.decr retry opts res
                    end)
              end))).
  { intros retry Hretry. simpl. split; [reflexivity |]. split; [reflexivity |].
    intros res. destruct (Index.absent (JS.at_prim res 0));
      [now apply create_relays | now apply decr_relays]. }
  induction retries as [| r IH]; rewrite mget_unfold; apply Hbody; [exact I | exact IH].
Qed.

Lemma create_relays_old retry opts : relays retry -> relays (Part000.create retry opts).
Proof.
  intros Hretry now. simpl. split; [reflexivity |]. intros res.
  destruct (Part000.isFirstReplyNull res); [exact Hretry | exact I].
Qed.

Lemma decr_relays_old retry opts res :
  relays retry -> relays (Part000.decr retry opts res).
Proof.
  intros Hretry now. simpl.
  destruct (JS.double_bitnot (JS.at_prim res 0) <=? 0); [exact I |].
  simpl. split; [reflexivity |]. intros replies.
  destruct (Part000.isFirstReplyNull replies); [exact Hretry | exact I].
Qed.

Lemma mget_relays_old retries opts : relays (Part000.mget retries opts).
Proof.
  induction retries as [| r IH]; simpl.
  - split; [reflexivity |]. split; [reflexivity |]. intros res.
    destruct (Part000.absent (JS.at_prim res 0));
      [now apply create_relays_old | now apply decr_relays_old].
  - split; [reflexivity |]. split; [reflexivity |]. intros res.
    destruct (Part000.absent (JS.at_prim res 0));
      [now apply create_relays_old | now apply decr_relays_old].
Qed.
End relaying.

(** An error in an answer of the store ends the query at once with
    that error handed to the callback, and a query hands an error to
    its callback only so: the last answer carried that very error and
    every answer before it carried none.  Both files. *)
Theorem errors_come_from_the_store `{JS.Runtime} es e :
  (forall retries self decrBy,
      (forall a ev a',
          steps (Index.get retries self decrBy) es = Some a ->
          event_error ev = Some e ->
          step a ev = Some a' ->
          a' = Return (Failure e))
      /\ (steps (Index.get retries self decrBy) es = Some (Return (Failure e)) ->
          exists before last,
            es = before ++ [last]
            /\ event_error last = Some e
            /\ Forall (fun ev => event_error ev = None) before))
  /\ (forall retries self,
      (forall a ev a',
          steps (Part000.get retries self) es = Some a ->
          event_error ev = Some e ->
          step a ev = Some a' ->
          a' = Return (Failure e))
      /\ (steps (Part000.get retries self) es = Some (Return (Failure e)) ->
          exists before last,
            es = before ++ [last]
            /\ event_error last = Some e
            /\ Forall (fun ev => event_error ev = None) before)).
Proof.
  split.
  - intros retries self decrBy. split.
    + intros a ev a'. apply relays_ends, mget_relays.
    + apply relays_steps, mget_relays.
  - intros retries self. split.
    + intros a ev a'. apply relays_ends, mget_relays_old.
    + apply relays_steps, mget_relays_old.
Qed.

Lemma errors_come_from_the_store_witness :
  exists before last,
    [Watched None; Values (Some "ECONNRESET") []] = before ++ [last]
    /\ event_error last = Some "ECONNRESET"
    /\ Forall (fun ev => event_error ev = None) before.
Proof.
  apply (proj2 (proj1 (@errors_come_from_the_store Decimal.runtime
                         [Watched None; Values (Some "ECONNRESET") []] "ECONNRESET")
                  O Sample.limiter None)).
  reflexivity.
Defined.

(** ** The shape of every result *)

Section clamping.
Context `{JS.Runtime}.

Lemma double_bitnot_range p : - 2 ^ 31 <= JS.double_bitnot p < 2 ^ 31.
Proof. rewrite double_bitnot_ToInt32. apply ToInt32_range. Qed.

Lemma bitor_zero_range x : - 2 ^ 31 <= JS.bitor x (JS.of_Z 0) < 2 ^ 31.
Proof. rewrite bitor_zero. apply ToInt32_range. Qed.

Lemma mget_clamped retries opts : always clamped (Index.mget retries opts).
Proof.
  assert (Hcreate : forall retry, always clamped retry ->
                                  always clamped (Index.create retry opts)).
  { intros retry Hretry now [e |] replies; simpl; [exact I |].
    destruct (Index.isFirstReplyNull replies); [exact Hretry |].
    simpl. split; [lia | apply bitor_zero_range]. }
  assert (Hdecr : forall retry res, always clamped retry ->
                                    always clamped (Index.decr retry opts res)).
  { intros retry res Hretry now. simpl.
    destruct (JS.double_bitnot (JS.at_prim res 0) <=? 0).
    - simpl. split; [lia | apply double_bitnot_range].
    - intros [e |] replies; simpl; [exact I |].
      destruct (Index.isFirstReplyNull replies); [exact Hretry |].
      simpl. split; [lia | apply double_bitnot_range]. }
  induction retries as [| r IH]; rewrite mget_unfold; simpl.
  - intros [e |]; simpl; [exact I |]. intros [e |] res; simpl; [exact I |].
    destruct (Index.absent (JS.at_prim res 0)); [apply Hcreate | apply Hdecr]; exact I.
  - intros [e |]; simpl; [exact I |]. intros [e |] res; simpl; [exact I |].
    destruct (Index.absent (JS.at_prim res 0)); [apply Hcreate | apply Hdecr]; exact IH.
Qed.

Lemma mget_clamped_old retries opts :
  0 <= Part000.opt_max opts -> always clamped (Part000.mget retries opts).
Proof.
  intros Hmax.
  assert (Hcreate : forall retry, always clamped retry ->
                                  always clamped (Part000.create retry opts)).
  { intros retry Hretry now [e |] replies; simpl; [exact I |].
    destruct (Part000.isFirstReplyNull replies); [exact Hretry |].
    simpl. split; [lia | apply bitor_zero_range]. }
  assert (Hdecr : forall retry res, always clamped retry ->
                                    always clamped (Part000.decr retry opts res)).
  { intros retry res Hretry now. simpl.
    destruct (Z.leb_spec (JS.double_bitnot (JS.at_prim res 0)) 0).
    - simpl. split; [| apply double_bitnot_range].
      destruct (Z.ltb_spec (JS.double_bitnot (JS.at_prim res 0)) 0); lia.
    - intros [e |] replies; simpl; [exact I |].
      destruct (Part000.isFirstReplyNull replies); [exact Hretry |].
      simpl. split; [| apply double_bitnot_range].
      destruct (Z.ltb_spec (JS.double_bitnot (JS.at_prim res 0) - 1) 0); lia. }
  induction retries as [| r IH]; simpl.
  - intros [e |]; simpl; [exact I |]. intros [e |] res; simpl; [exact I |].
    destruct (Part000.absent (JS.at_prim res 0)); [apply Hcreate | apply Hdecr]; exact I.
  - intros [e |]; simpl; [exact I |]. intros [e |] res; simpl; [exact I |].
    destruct (Part000.absent (JS.at_prim res 0)); [apply Hcreate | apply Hdecr]; exact IH.
Qed.

Lemma clamped_steps a es r :
  always clamped a -> steps a es = Some (Return (Success r)) ->
  0 <= remaining r /\ - 2 ^ 31 <= reset r < 2 ^ 31.
Proof. intros Ha Hsteps. exact (always_steps clamped a es (Success r) Ha Hsteps). Qed.
End clamping.

(** Whatever the store holds and answers, a result of [query] never
    has a negative remaining, and its reset is a signed 32-bit integer;
    in [src/index.js] for every configuration and every [decrBy], in
    [src/unnamed/part_000] for a configured maximum that is not
    negative. *)
Theorem results_are_clamped `{JS.Runtime} es r :
  (forall retries self decrBy,
      steps (Index.get retries self decrBy) es = Some (Return (Success r)) ->
      0 <= remaining r /\ - 2 ^ 31 <= reset r < 2 ^ 31)
  /\ (forall retries self,
      0 <= Part000.max self ->
      steps (Part000.get retries self) es = Some (Return (Success r)) ->
      0 <= remaining r /\ - 2 ^ 31 <= reset r < 2 ^ 31).
Proof.
  split.
  - intros retries self decrBy. apply clamped_steps, mget_clamped.
  - intros retries self Hmax. apply clamped_steps, mget_clamped_old. exact Hmax.
Qed.

Lemma results_are_clamped_witness :
  0 <= remaining {| total := 10; remaining := 0; reset := 1700000060 |}
  /\ - 2 ^ 31 <= reset {| total := 10; remaining := 0; reset := 1700000060 |} < 2 ^ 31.
Proof.
  apply (proj1 (@results_are_clamped Decimal.runtime
                  [Watched None; Values None [JS.Str "2"; JS.Str "1700000060"];
                   Clock Sample.now; Replies None Sample.committed]
                  {| total := 10; remaining := 0; reset := 1700000060 |})
           O Sample.limiter (Some 5)).
  vm_compute. reflexivity.
Defined.

(** ** The keys a query touches *)

Section confinement.
Context `{JS.Runtime}.

Lemma mget_confined retries opts :
  confined [Index.count opts; Index.reset_key opts] (Index.mget retries opts).
Proof.
  set (K := [Index.count opts; Index.reset_key opts]).
  assert (Hcount : Index.count opts ∈ K) by (apply list_elem_of_In; simpl; auto).
  assert (Hreset : Index.reset_key opts ∈ K) by (apply list_elem_of_In; simpl; auto).
  assert (Hcreate : forall retry, confined K retry ->
                                  confined K (Index.create retry opts)).
  { intros retry Hretry now. simpl. split; [repeat constructor; assumption |].
    intros [e |] replies; [exact I |].
    destruct (Index.isFirstReplyNull replies); [exact Hretry | exact I]. }
  assert (Hdecr : forall retry res, confined K retry ->
                                    confined K (Index.decr retry opts res)).
  { intros retry res Hretry now. simpl.
    destruct (JS.double_bitnot (JS.at_prim res 0) <=? 0); [exact I |].
    simpl. split; [repeat constructor; assumption |].
    intros [e |] replies; [exact I |].
    destruct (Index.isFirstReplyNull replies); [exact Hretry | exact I]. }
  induction retries as [| r IH]; rewrite mget_unfold; simpl.
  - split; [repeat constructor; assumption |]. intros [e |]; simpl; [exact I |].
    split; [repeat constructor; assumption |]. intros [e |] res; [exact I |].
    destruct (Index.absent (JS.at_prim res 0)); [apply Hcreate | apply Hdecr]; exact I.
  - split; [repeat constructor; assumption |]. intros [e |]; simpl; [exact I |].
    split; [repeat constructor; assumption |]. intros [e |] res; [exact I |].
    destruct (Index.absent (JS.at_prim res 0)); [apply Hcreate | apply Hdecr]; exact IH.
Qed.

Lemma mget_confined_old retries opts :
  confined [Part000.count opts; Part000.limit opts; Part000.reset_key opts]
           (Part000.mget retries opts).
Proof.
  set (K := [Part000.count opts; Part000.limit opts; Part000.reset_key opts]).
  assert (Hcount : Part000.count opts ∈ K) by (apply list_elem_of_In; simpl; auto).
  assert (Hlimit : Part000.limit opts ∈ K) by (apply list_elem_of_In; simpl; auto).
  assert (Hreset : Part000.reset_key opts ∈ K) by (apply list_elem_of_In; simpl; auto).
  assert (Hcreate : forall retry, confined K retry ->
                                  confined K (Part000.create retry opts)).
  { intros retry Hretry now. simpl. split; [repeat constructor; assumption |].
    intros [e |] replies; [exact I |].
    destruct (Part000.isFirstReplyNull replies); [exact Hretry | exact I]. }
  assert (Hdecr : forall retry res, confined K retry ->
                                    confined K (Part000.decr retry opts res)).
  { intros retry res Hretry now. simpl.
    destruct (JS.double_bitnot (JS.at_prim res 0) <=? 0); [exact I |].
    simpl. split; [repeat constructor; assumption |].
    intros [e |] replies; [exact I |].
    destruct (Part000.isFirstReplyNull replies); [exact Hretry | exact I]. }
  induction retries as [| r IH]; simpl.
  - split; [repeat constructor; assumption |]. intros [e |]; simpl; [exact I |].
    split; [repeat constructor; assumption |]. intros [e |] res; [exact I |].
    destruct (Part000.absent (JS.at_prim res 0)); [apply Hcreate | apply Hdecr]; exact I.
  - split; [repeat constructor; assumption |]. intros [e |]; simpl; [exact I |].
    split; [repeat constructor; assumption |]. intros [e |] res; [exact I |].
    destruct (Part000.absent (JS.at_prim res 0)); [apply Hcreate | apply Hdecr]; exact IH.
Qed.

(** A transaction leaves the keys it does not name as they are. *)
Lemma exec_commands_frame now (db : gmap string Redis.entry) cmds (K : list string) key :
  Forall (fun c => command_key c ∈ K) cmds ->
  key ∉ K ->
  (Redis.exec_commands now db cmds).1 !! key = db !! key.
Proof.
  intros Hcmds Hkey. revert db.
  induction Hcmds as [| c cmds Hc _ IH]; intros db; [reflexivity |].
  cbn [Redis.exec_commands].
  pose proof (exec_command_frame now db c key) as Hframe.
  destruct (Redis.exec_command now db c) as [db1 r].
  specialize (IH db1).
  destruct (Redis.exec_commands now db1 cmds) as [db2 rs].
  cbn [fst] in *. rewrite IH. apply Hframe.
  intros Heq. apply Hkey. now rewrite <- Heq.
Qed.

Lemma serve_confined c now s a s' a' (K : list string) key :
  confined K a ->
  key ∉ K ->
  Redis.serve c now s a = Some (s', a') ->
  confined K a' /\ Redis.db s' !! key = Redis.db s !! key.
Proof.
  intros Ha Hkey Hserve. unfold Redis.serve, Redis.answer in Hserve.
  destruct a as [o | k | keys k | keys k | cmds k |]; try discriminate.
  - injection Hserve as <- <-. split; [apply Ha | reflexivity].
  - injection Hserve as <- <-. split; [apply Ha | reflexivity].
  - injection Hserve as <- <-. split; [apply Ha | reflexivity].
  - destruct Ha as (Hcmds & Hk). destruct (Redis.dirty s).
    + injection Hserve as <- <-. split; [apply Hk | reflexivity].
    + pose proof (exec_commands_frame now (Redis.db s) cmds K key Hcmds Hkey) as Hframe.
      destruct (Redis.exec_commands now (Redis.db s) cmds) as [db1 rs].
      injection Hserve as <- <-. split; [apply Hk | exact Hframe].
Qed.

Lemma run_confined c ticks s a (K : list string) key :
  Forall (fun t => Redis.others t = []) ticks ->
  confined K a ->
  key ∉ K ->
  Redis.db (Redis.run c ticks s a).1 !! key = Redis.db s !! key.
Proof.
  intros Hquiet. revert s a.
  induction Hquiet as [| t ticks Ht _ IH]; intros s a Ha Hkey; [reflexivity |].
  cbn [Redis.run]. rewrite Ht. cbn [Redis.interfere].
  destruct (Redis.serve c (Redis.at_time t) s a) as [[s1 a1] |] eqn:Hserve;
    [| reflexivity].
  destruct (serve_confined _ _ _ _ _ _ _ _ Ha Hkey Hserve) as (Ha1 & Hdb).
  rewrite IH by assumption. exact Hdb.
Qed.
End confinement.

(** A query watches, reads and writes no key but the count and reset
    keys of its instance (and the limit key in [src/unnamed/part_000]),
    whatever the store answers; run against the store with nothing else
    going on, it leaves every other key, its value and its expiration,
    as it was. *)
Theorem query_touches_own_keys_only `{JS.Runtime} c retries ticks s key :
  (forall self decrBy,
      let count := (Index.prefix self +:+ "count")%string in
      let reset := (Index.prefix self +:+ "reset")%string in
      confined [count; reset] (Index.get retries self decrBy)
      /\ (Forall (fun t => Redis.others t = []) ticks ->
          key <> count -> key <> reset ->
          Redis.db (Redis.run c ticks s (Index.get retries self decrBy)).1 !! key
          = Redis.db s !! key))
  /\ (forall self,
      let count := (Part000.prefix self +:+ "count")%string in
      let limit := (Part000.prefix self +:+ "limit")%string in
      let reset := (Part000.prefix self +:+ "reset")%string in
      confined [count; limit; reset] (Part000.get retries self)
      /\ (Forall (fun t => Redis.others t = []) ticks ->
          key <> count -> key <> limit -> key <> reset ->
          Redis.db (Redis.run c ticks s (Part000.get retries self)).1 !! key
          = Redis.db s !! key)).
Proof.
  split.
  - intros self decrBy count reset.
    pose proof (mget_confined retries
                  {| Index.count := count; Index.reset_key := reset;
                     Index.opt_max := Index.max self;
                     Index.opt_duration := Index.duration self;
                     Index.decrBy := match decrBy with Some d => d | None => 1 end |})
      as Hconfined.
    split; [exact Hconfined |].
    intros Hquiet Hc Hr. apply (run_confined _ _ _ _ _ _ Hquiet Hconfined).
    cbn [Index.count Index.reset_key].
    intros Hin. apply list_elem_of_In in Hin. simpl in Hin. intuition congruence.
  - intros self count limit reset.
    pose proof (mget_confined_old retries
                  {| Part000.count := count; Part000.limit := limit;
                     Part000.reset_key := reset;
                     Part000.opt_max := Part000.max self;
                     Part000.opt_duration := Part000.duration self |})
      as Hconfined.
    split; [exact Hconfined |].
    intros Hquiet Hc Hl Hr. apply (run_confined _ _ _ _ _ _ Hquiet Hconfined).
    cbn [Part000.count Part000.limit Part000.reset_key].
    intros Hin. apply list_elem_of_In in Hin. simpl in Hin. intuition congruence.
Qed.

Lemma query_touches_own_keys_only_witness :
  Redis.db (Redis.run Redis.node_redis (Redis.quiet Sample.now 4)
              (Redis.fresh (Sample.old_window "7"))
              (@Index.get Decimal.runtime 0 Sample.limiter None)).1
    !! "limit:x:limit"
  = Sample.old_window "7" !! "limit:x:limit".
Proof.
  apply (proj2 (proj1 (@query_touches_own_keys_only Decimal.runtime Redis.node_redis
                         0 (Redis.quiet Sample.now 4)
                         (Redis.fresh (Sample.old_window "7")) "limit:x:limit")
                  Sample.limiter None)).
  - repeat constructor.
  - discriminate.
  - discriminate.
Defined.

(** ** Identifiers do not share keys *)

Section identifiers.
Context `{JS.Runtime}.

Lemma length_append (a b : string) :
  String.length (a +:+ b) = (String.length a + String.length b)%nat.
Proof. induction a as [| x a IH]; simpl; [reflexivity | now rewrite IH]. Qed.

(** Two strings with suffixes of one length are equal only part by part. *)
Lemma append_split (a c b d : string) :
  String.length b = String.length d ->
  a +:+ b = c +:+ d ->
  a = c /\ b = d.
Proof.
  intros Hlen. revert c. induction a as [| x a IH]; intros [| y c] Heq; simpl in Heq.
  - now split.
  - apply (f_equal String.length) in Heq.
    rewrite ?length_append in Heq. simpl in Heq. rewrite ?length_append in Heq. lia.
  - apply (f_equal String.length) in Heq.
    rewrite ?length_append in Heq. simpl in Heq. rewrite ?length_append in Heq. lia.
  - injection Heq as -> Heq. destruct (IH c Heq) as (-> & ->). now split.
Qed.

Lemma key_of_one_identifier id1 id2 suffix1 suffix2 :
  String.length suffix1 = String.length suffix2 ->
  ("limit:" +:+ id1 +:+ ":") +:+ suffix1 = ("limit:" +:+ id2 +:+ ":") +:+ suffix2 ->
  id1 = id2.
Proof.
  intros Hlen Heq.
  destruct (append_split _ _ _ _ Hlen Heq) as (Hprefix & _).
  simpl in Hprefix. injection Hprefix as Hprefix.
  now destruct (append_split id1 id2 ":" ":" eq_refl Hprefix).
Qed.
End identifiers.

(** Instances made for two different identifiers share no key, and a
    query of the one leaves the count and reset keys of the other, their
    values and their expirations, as they are (with nothing else going
    on at the store).  The same in [src/unnamed/part_000] with its
    three keys. *)
Theorem identifiers_are_independent `{JS.Runtime}
    c retries ticks s id1 id2 max1 max2 duration1 duration2 suffix :
  id1 <> id2 ->
  Forall (fun t => Redis.others t = []) ticks ->
  suffix = "count" \/ suffix = "reset" \/ suffix = "limit" ->
  (forall self1 self2 decrBy,
      Index.new_Limiter id1 max1 duration1 = Some self1 ->
      Index.new_Limiter id2 max2 duration2 = Some self2 ->
      Redis.db (Redis.run c ticks s (Index.get retries self1 decrBy)).1
        !! (Index.prefix self2 +:+ suffix)
      = Redis.db s !! (Index.prefix self2 +:+ suffix))
  /\ (forall self1 self2,
      Part000.new_Limiter id1 max1 duration1 = Some self1 ->
      Part000.new_Limiter id2 max2 duration2 = Some self2 ->
      Redis.db (Redis.run c ticks s (Part000.get retries self1)).1
        !! (Part000.prefix self2 +:+ suffix)
      = Redis.db s !! (Part000.prefix self2 +:+ suffix)).
Proof.
  intros Hids Hquiet Hsuffix.
  assert (Hlen : String.length suffix = 5%nat)
    by (destruct Hsuffix as [-> | [-> | ->]]; reflexivity).
  split.
  - intros self1 self2 decrBy Hself1 Hself2.
    unfold Index.new_Limiter in Hself1, Hself2.
    destruct (String.eqb id1 ""); [discriminate |].
    destruct (String.eqb id2 ""); [discriminate |].
    injection Hself1 as <-. injection Hself2 as <-. cbn [Index.prefix].
    apply (run_confined _ _ _ _ _ _ Hquiet (mget_confined _ _)).
    cbn [Index.count Index.reset_key Index.prefix].
    intros Hin. apply list_elem_of_In in Hin. simpl in Hin.
    destruct Hin as [Heq | [Heq | []]];
      (apply key_of_one_identifier in Heq; [congruence | now rewrite Hlen]).
  - intros self1 self2 Hself1 Hself2.
    unfold Part000.new_Limiter in Hself1, Hself2.
    destruct (String.eqb id1 ""); [discriminate |].
    destruct (String.eqb id2 ""); [discriminate |].
    injection Hself1 as <-. injection Hself2 as <-. cbn [Part000.prefix].
    apply (run_confined _ _ _ _ _ _ Hquiet (mget_confined_old _ _)).
    cbn [Part000.count Part000.limit Part000.reset_key Part000.prefix].
    intros Hin. apply list_elem_of_In in Hin. simpl in Hin.
    destruct Hin as [Heq | [Heq | [Heq | []]]];
      (apply key_of_one_identifier in Heq; [congruence | now rewrite Hlen]).
Qed.

Lemma identifiers_are_independent_witness :
  Redis.db (Redis.run Redis.node_redis (Redis.quiet Sample.now 4)
              (Redis.fresh (Sample.window "7"))
              (@Index.get Decimal.runtime 0
                 {| Index.id := "y"; Index.max := 2500; Index.duration := 3600000;
                    Index.prefix := "limit:y:" |} None)).1
    !! "limit:x:count"
  = Sample.window "7" !! "limit:x:count".
Proof.
  apply (proj1 (@identifiers_are_independent Decimal.runtime Redis.node_redis 0
                  (Redis.quiet Sample.now 4) (Redis.fresh (Sample.window "7"))
                  "y" "x" None (Some 10) None (Some 60000) "count"
                  ltac:(discriminate) ltac:(repeat constructor)
                  ltac:(left; reflexivity))
           _ Sample.limiter None eq_refl eq_refl).
Defined.

(** ** The watch: a decrement is applied to the count that is there *)

Section optimistic.
Context `{JS.Runtime}.





End optimistic.




(** ** What the tracker writes, it reads back *)

Section decimal.

Lemma digit_of_char d :
  (d < 10)%N -> Decimal.digit (pretty_N_char d) = Some (Z.of_N d).
Proof.
  intros Hd.
  assert (Hcases : (d = 0 \/ d = 1 \/ d = 2 \/ d = 3 \/ d = 4 \/ d = 5
                    \/ d = 6 \/ d = 7 \/ d = 8 \/ d = 9)%N) by lia.
  repeat (destruct Hcases as [-> | Hcases]; [reflexivity |]).
  subst d. reflexivity.
Qed.

Lemma digits_of_pretty x :
  forall acc s,
    exists k, Decimal.digits acc (pretty_N_go x s)
              = Decimal.digits (k * acc + Z.of_N x) s.
Proof.
  induction (N.lt_wf_0 x) as [x _ IH]. intros acc s.
  destruct (N.eq_dec x 0%N) as [-> | Hx].
  - exists 1. rewrite pretty_N_go_0. f_equal. lia.
  - rewrite pretty_N_go_step by lia.
    destruct (IH (x `div` 10)%N ltac:(apply N.div_lt; lia) acc
                 (String (pretty_N_char (x `mod` 10)) s)) as (k & ->).
    exists (10 * k). cbn [Decimal.digits].
    rewrite digit_of_char by (apply N.mod_lt; lia).
    f_equal.
    rewrite (N.div_mod x 10) at 3 by lia.
    rewrite N2Z.inj_add, N2Z.inj_mul. simpl Z.of_N. lia.
Qed.

Lemma parse_digits s v :
  s <> "" -> Decimal.digits 0 s = Some v -> Decimal.parse s = JS.of_Z v.
Proof.
  destruct s as [| a s]; [congruence |]. intros _ Hdigits.
  assert (Hunsigned : Decimal.unsigned (String a s) = Some v) by exact Hdigits.
  cbn [Decimal.digits] in Hdigits.
  destruct (Decimal.digit a) as [d |] eqn:Hdigit; [| discriminate].
  destruct a as [b0 b1 b2 b3 b4 b5 b6 b7].
  destruct b0, b1, b2, b3, b4, b5, b6, b7; try discriminate Hdigit;
    unfold Decimal.parse; now rewrite Hunsigned.
Qed.

Lemma parse_pretty_N x :
  (0 < x)%N ->
  pretty_N_go x "" <> "" /\ Decimal.digits 0 (pretty_N_go x "") = Some (Z.of_N x).
Proof.
  intros Hx. destruct (digits_of_pretty x 0 "") as (k & Hk).
  assert (Hdigits : Decimal.digits 0 (pretty_N_go x "") = Some (Z.of_N x))
    by (rewrite Hk; simpl; f_equal; lia).
  split; [| exact Hdigits].
  intros Hempty. rewrite Hempty in Hdigits. simpl in Hdigits.
  injection Hdigits as Hzero. lia.
Qed.

(** The decimal runtime reads back every integer as it is printed. *)
Lemma parse_NumberToString z :
  Decimal.parse (JS.NumberToString z) = JS.of_Z z.
Proof.
  unfold JS.NumberToString, pretty, pretty_Z. destruct z as [| p | p].
  - reflexivity.
  - unfold pretty, pretty_N. destruct (decide (N.pos p = 0%N)); [discriminate |].
    destruct (parse_pretty_N (N.pos p) ltac:(lia)) as (Hne & Hdigits).
    now apply parse_digits.
  - unfold pretty, pretty_N. destruct (decide (N.pos p = 0%N)); [discriminate |].
    destruct (parse_pretty_N (N.pos p) ltac:(lia)) as (Hne & Hdigits).
    change (Decimal.parse (String (Ascii.Ascii true false true true false true false false)
                                  (pretty_N_go (N.pos p) "")) = JS.of_Z (Z.neg p)).
    unfold Decimal.parse. cbv iota.
    assert (Hunsigned : Decimal.unsigned (pretty_N_go (N.pos p) "") = Some (Z.pos p)).
    { unfold Decimal.unsigned. destruct (pretty_N_go (N.pos p) ""); [congruence |].
      exact Hdigits. }
    now rewrite Hunsigned.
Qed.
End decimal.

(** ** Queries in a row *)

Section session.
Context `{JS.Runtime}.

(** The runtime reads back the integers of the signed 32-bit range as
    [NumberToString] prints them. *)
Hypothesis reads_back :
  forall z, - 2 ^ 31 <= z < 2 ^ 31 ->
            JS.StringToNumber (JS.NumberToString z) = JS.of_Z z.

Lemma parse_stored z :
  - 2 ^ 31 <= z < 2 ^ 31 -> JS.double_bitnot (JS.Str (JS.NumberToString z)) = z.
Proof.
  intros Hz. rewrite double_bitnot_ToInt32. cbn [JS.ToNumber].
  rewrite reads_back, ToInt32_of_Z by exact Hz. now apply wrap32_small.
Qed.

Lemma NumberToString_nonempty z : JS.NumberToString z <> "".
Proof.
  unfold JS.NumberToString, pretty, pretty_Z. destruct z as [| p | p].
  - discriminate.
  - unfold pretty, pretty_positive, pretty, pretty_N.
    destruct (decide (N.pos p = 0%N)); [discriminate |].
    apply parse_pretty_N. lia.
  - discriminate.
Qed.

Lemma read_live now (db : gmap string Redis.entry) key v E :
  db !! key = Some {| Redis.value := v; Redis.expire_at := Some E |} ->
  now < E ->
  Redis.get now db key = Some {| Redis.value := v; Redis.expire_at := Some E |}
  /\ Redis.read now db key = JS.Str v.
Proof.
  intros Hkey Hlive. unfold Redis.read, Redis.get, Redis.live. rewrite Hkey. simpl.
  destruct (Z.ltb_spec now E); [now split | lia].
Qed.

(** A query on a window that is there. *)
Lemma query_existing c retries self decrBy now s cnt ex E :
  let count := (Index.prefix self +:+ "count")%string in
  let reset := (Index.prefix self +:+ "reset")%string in
  let by_ := match decrBy with Some d => d | None => 1 end in
  let cnt' := if cnt <=? 0 then cnt else cnt - by_ in
  let E' := if cnt <=? 0 then E else ex * 1000 in
  Redis.dirty s = false ->
  Redis.db s !! count
  = Some {| Redis.value := JS.NumberToString cnt; Redis.expire_at := Some E |} ->
  Redis.db s !! reset
  = Some {| Redis.value := JS.NumberToString ex; Redis.expire_at := Some E |} ->
  - 2 ^ 31 <= cnt < 2 ^ 31 ->
  - 2 ^ 31 <= ex < 2 ^ 31 ->
  now < E ->
  now < ex * 1000 ->
  exists s',
    Redis.run c (Redis.quiet now 4) s (Index.get retries self decrBy)
    = (s', Return (Success {| total := Index.max self;
                              remaining := Z.max cnt' 0;
                              reset := ex |}))
    /\ Redis.dirty s' = false
    /\ Redis.db s' !! count
       = Some {| Redis.value := JS.NumberToString cnt'; Redis.expire_at := Some E' |}
    /\ Redis.db s' !! reset
       = Some {| Redis.value := JS.NumberToString ex; Redis.expire_at := Some E' |}.
Proof.
  intros count reset by_ cnt' E' Hdirty Hcount Hreset Hcnt Hex Hlive Httl.
  destruct (keys_distinct (Index.prefix self)) as (Hcr & _ & _).
  fold count in Hcr. fold reset in Hcr.
  destruct (read_live now _ _ _ _ Hcount Hlive) as (Hgetc & Hreadc).
  destruct (read_live now _ _ _ _ Hreset Hlive) as (Hgetr & Hreadr).
  unfold Index.get. cbn [Redis.quiet repeat]. rewrite run_probe.
  cbn [Index.count Index.reset_key Redis.db]. cbn zeta.
  fold count. fold reset. rewrite Hreadc, Hreadr. cbn [JS.at_prim nth].
  rewrite (proj2 (absent_Str _) (NumberToString_nonempty cnt)).
  subst cnt' E'. destruct (Z.leb_spec cnt 0) as [Hle | Hgt].
  - (* used up: the answer follows the clock *)
    rewrite run_quiet_tick.
    cbn [Redis.serve Redis.answer Index.decr step JS.at_prim nth].
    rewrite !parse_stored by assumption.
    destruct (Z.leb_spec cnt 0); [| lia].
    unfold Index.done. cbn [Index.opt_max]. rewrite run_Return.
    eexists. split; [reflexivity |]. cbn [Redis.dirty Redis.db]. auto.
  - (* quota left: the transaction *)
    rewrite run_decr by (cbn [JS.at_prim nth Redis.dirty];
                         rewrite ?parse_stored by assumption; assumption).
    cbn [JS.at_prim nth Index.decrBy Redis.db]. cbn zeta.
    rewrite !parse_stored by assumption. fold by_.
    unfold Index.decr_multi. cbn [Index.count Index.reset_key]. fold count. fold reset.
    set (ttl := ex * 1000 - now). assert (Hpos : 0 < ttl) by (subst ttl; lia).
    cbn [Redis.exec_commands].
    destruct (exec_SET_present now (Redis.db s) count (cnt - by_) ttl _ Hpos Hgetc)
      as (_ & ->).
    rewrite exec_PEXPIRE, get_insert_ne, Hgetr by exact Hcr.
    destruct (Z.leb_spec ttl 0); [lia |].
    cbn [fst snd]. rewrite first_Ok_not_null.
    unfold Index.done. cbn [Index.opt_max Redis.value]. cbn [Redis.run].
    eexists. split; [reflexivity |]. cbn [Redis.dirty Redis.db].
    replace (now + ttl) with (ex * 1000) by (subst ttl; lia).
    split; [reflexivity |]. split.
    + rewrite lookup_insert_ne by congruence. apply lookup_insert_eq.
    + apply lookup_insert_eq.
Qed.

(** A query on an identifier that has no window. *)
Lemma query_fresh c retries self decrBy now s :
  let count := (Index.prefix self +:+ "count")%string in
  let reset := (Index.prefix self +:+ "reset")%string in
  let by_ := match decrBy with Some d => d | None => 1 end in
  let adjusted := Z.max (Index.max self - (by_ - 1)) 0 in
  let ex := JS.wrap32 (Z.quot (now + Index.duration self) 1000) in
  let E := now + Index.duration self in
  Redis.dirty s = false ->
  Redis.get now (Redis.db s) count = None ->
  Redis.get now (Redis.db s) reset = None ->
  0 < Index.duration self ->
  exists s',
    Redis.run c (Redis.quiet now 4) s (Index.get retries self decrBy)
    = (s', Return (Success {| total := Index.max self;
                              remaining := adjusted;
                              reset := ex |}))
    /\ Redis.dirty s' = false
    /\ Redis.db s' !! count
       = Some {| Redis.value := JS.NumberToString adjusted; Redis.expire_at := Some E |}
    /\ Redis.db s' !! reset
       = Some {| Redis.value := JS.NumberToString ex; Redis.expire_at := Some E |}.
Proof.
  intros count reset by_ adjusted ex E Hdirty Hcount Hreset Hduration. subst E.
  destruct (keys_distinct (Index.prefix self)) as (Hcr & _ & _).
  fold count in Hcr. fold reset in Hcr.
  unfold Index.get. cbn [Redis.quiet repeat]. rewrite run_probe.
  cbn [Index.count Index.reset_key Redis.db]. cbn zeta.
  fold count. fold reset.
  rewrite (proj2 (read_Null _ _ _) Hcount). cbn [JS.at_prim nth].
  change (Index.absent JS.Null) with true. cbv iota.
  rewrite run_create by exact Hdirty.
  cbn [Index.opt_duration Index.opt_max Index.decrBy Redis.db]. cbn zeta.
  fold by_. fold adjusted. rewrite reset_epoch. fold ex.
  unfold Index.create_multi. cbn [Index.count Index.reset_key Index.opt_duration].
  fold count. fold reset. cbn [Redis.exec_commands].
  destruct (exec_SET_absent now (Redis.db s) count adjusted _ Hduration Hcount)
    as (-> & _).
  assert (Hreset1 : Redis.get now
                      (<[count := {| Redis.value := JS.NumberToString adjusted;
                                     Redis.expire_at := Some (now + Index.duration self) |}]>
                         (Redis.db s)) reset = None)
    by now rewrite get_insert_ne.
  destruct (exec_SET_absent now _ reset ex _ Hduration Hreset1) as (-> & _).
  cbn [fst snd]. rewrite first_Ok_not_null. cbn [Redis.run].
  eexists. split; [reflexivity |]. cbn [Redis.dirty Redis.db].
  split; [reflexivity |]. split.
  - rewrite lookup_insert_ne by congruence. apply lookup_insert_eq.
  - apply lookup_insert_eq.
Qed.
End session.

Lemma queries_cons c query t times s :
  (queries c query (t :: times) s).2
  = (Redis.run c (Redis.quiet t 4) s query).2
    :: (queries c query times (Redis.run c (Redis.quiet t 4) s query).1).2.
Proof.
  cbn [queries]. destruct (Redis.run c (Redis.quiet t 4) s query) as [s1 a].
  cbn [fst snd]. destruct (queries c query times s1) as [s2 answers]. reflexivity.
Qed.

Lemma wrap32_below z : - 2 ^ 31 <= z -> JS.wrap32 z <= z.
Proof.
  intros Hz. unfold JS.wrap32.
  pose proof (Z.mod_le (z + 2 ^ 31) (2 ^ 32) ltac:(lia) ltac:(lia)). lia.
Qed.

(** The queries that follow the first one, by the count the store
    holds when they start. *)
Lemma queries_on_window `{JS.Runtime} c retries self decrBy ex times :
  (forall z, - 2 ^ 31 <= z < 2 ^ 31 ->
             JS.StringToNumber (JS.NumberToString z) = JS.of_Z z) ->
  let count := (Index.prefix self +:+ "count")%string in
  let reset := (Index.prefix self +:+ "reset")%string in
  let by_ := match decrBy with Some d => d | None => 1 end in
  let adjusted := Z.max (Index.max self - (by_ - 1)) 0 in
  1 <= by_ < 2 ^ 31 ->
  - 2 ^ 31 <= ex < 2 ^ 31 ->
  Forall (fun t => t < ex * 1000) times ->
  forall s cnt E (done : nat),
    Redis.dirty s = false ->
    Redis.db s !! count
    = Some {| Redis.value := JS.NumberToString cnt; Redis.expire_at := Some E |} ->
    Redis.db s !! reset
    = Some {| Redis.value := JS.NumberToString ex; Redis.expire_at := Some E |} ->
    ex * 1000 <= E ->
    - 2 ^ 31 <= cnt < 2 ^ 31 ->
    cnt = adjusted - Z.of_nat done * by_
    \/ (cnt <= 0 /\ adjusted - Z.of_nat done * by_ <= 0) ->
    (queries c (Index.get retries self decrBy) times s).2
    = map (fun i => Return (Success {| total := Index.max self;
                                       remaining := Z.max (adjusted - Z.of_nat i * by_) 0;
                                       reset := ex |}))
          (seq (S done) (length times)).
Proof.
  intros Hlaw count reset by_ adjusted Hby Hex Htimes.
  induction Htimes as [| t times Ht _ IH];
    intros s cnt E done Hdirty Hcount Hreset HE Hcnt Hrel; [reflexivity |].
  rewrite queries_cons.
  destruct (query_existing Hlaw c retries self decrBy t s cnt ex E
              Hdirty Hcount Hreset Hcnt Hex ltac:(lia) Ht)
    as (s' & Hrun & Hdirty' & Hcount' & Hreset').
  fold by_ in Hrun, Hcount'. rewrite Hrun. cbn [fst snd length seq map].
  f_equal.
  - do 3 f_equal. destruct (Z.leb_spec cnt 0); lia.
  - apply (IH s' _ _ (S done) Hdirty' Hcount' Hreset').
    + destruct (Z.leb_spec cnt 0); lia.
    + destruct (Z.leb_spec cnt 0); lia.
    + destruct (Z.leb_spec cnt 0); lia.
Qed.

(** The first query on an identifier opens the window and each query
    after it, while the window lasts, takes [decrBy] more: with a
    runtime that reads integers back as they are printed, the i-th
    query of a row (from 0) returns total = max, remaining =
    max(adjusted − i * decrBy, 0), where adjusted = max(max − (decrBy −
    1), 0), and the reset of the first; remaining goes down by
    [decrBy] a call until it is 0 and stays 0. *)
Theorem queries_count_down `{JS.Runtime} c retries self decrBy t0 times s :
  let count := (Index.prefix self +:+ "count")%string in
  let reset := (Index.prefix self +:+ "reset")%string in
  let by_ := match decrBy with Some d => d | None => 1 end in
  let adjusted := Z.max (Index.max self - (by_ - 1)) 0 in
  let ex := JS.wrap32 (Z.quot (t0 + Index.duration self) 1000) in
  (forall z, - 2 ^ 31 <= z < 2 ^ 31 ->
             JS.StringToNumber (JS.NumberToString z) = JS.of_Z z) ->
  0 <= Index.max self < 2 ^ 31 ->
  1 <= by_ < 2 ^ 31 ->
  0 < Index.duration self ->
  0 <= t0 ->
  Redis.dirty s = false ->
  Redis.get t0 (Redis.db s) count = None ->
  Redis.get t0 (Redis.db s) reset = None ->
  Forall (fun t => t < ex * 1000) times ->
  (queries c (Index.get retries self decrBy) (t0 :: times) s).2
  = map (fun i => Return (Success {| total := Index.max self;
                                     remaining := Z.max (adjusted - Z.of_nat i * by_) 0;
                                     reset := ex |}))
        (seq 0 (S (length times))).
Proof.
  intros count reset by_ adjusted ex Hlaw Hmax Hby Hduration Ht0
         Hdirty Hcount Hreset Htimes.
  rewrite queries_cons.
  destruct (query_fresh c retries self decrBy t0 s Hdirty Hcount Hreset Hduration)
    as (s' & Hrun & Hdirty' & Hcount' & Hreset').
  fold by_ adjusted ex in Hrun, Hcount', Hreset'. rewrite Hrun.
  cbn [fst snd seq map]. f_equal.
  - do 3 f_equal. lia.
  - assert (Hquot : 0 <= Z.quot (t0 + Index.duration self) 1000
                    /\ Z.quot (t0 + Index.duration self) 1000 * 1000
                       <= t0 + Index.duration self).
    { rewrite Z.quot_div_nonneg by lia.
      pose proof (Z.div_pos (t0 + Index.duration self) 1000 ltac:(lia) ltac:(lia)).
      pose proof (Z.mul_div_le (t0 + Index.duration self) 1000 ltac:(lia)). lia. }
    apply (queries_on_window c retries self decrBy ex times Hlaw Hby
             (wrap32_range _) Htimes s' adjusted _ 0%nat Hdirty' Hcount' Hreset').
    + pose proof (wrap32_below (Z.quot (t0 + Index.duration self) 1000) ltac:(lia)).
      subst ex. lia.
    + subst adjusted. lia.
    + left. lia.
Qed.

Lemma queries_count_down_witness :
  (queries Redis.node_redis (@Index.get Decimal.runtime 0 Sample.limiter (Some 4))
     [1700000000123; 1700000001000; 1700000030000; 1700000059999]
     (Redis.fresh ∅)).2
  = [ Return (Success {| total := 10; remaining := 7; reset := 1700000060 |});
      Return (Success {| total := 10; remaining := 3; reset := 1700000060 |});
      Return (Success {| total := 10; remaining := 0; reset := 1700000060 |});
      Return (Success {| total := 10; remaining := 0; reset := 1700000060 |}) ].
Proof.
  refine (eq_trans
            (@queries_count_down Decimal.runtime Redis.node_redis 0 Sample.limiter
               (Some 4) 1700000000123
               [1700000001000; 1700000030000; 1700000059999] (Redis.fresh ∅)
               _ _ _ _ _ _ _ _ _) _).
  - intros z _. apply parse_NumberToString.
  - vm_compute. split; [discriminate | reflexivity].
  - vm_compute. split; [discriminate | reflexivity].
  - reflexivity.
  - discriminate.
  - reflexivity.
  - reflexivity.
  - reflexivity.
  - repeat constructor.
  - vm_compute. reflexivity.
Defined.

(** ** Restarts have no bound *)

(** However many transactions in a row report no effect, the query
    answers each with a new probe: after [k] such rounds it has handed
    neither a result nor an error to its callback and stands where a
    new query stands.  There is no cap on the restarts and no delay
    between them. *)
Theorem restarts_have_no_bound `{JS.Runtime}
    retries self decrBy (rounds : list (list JS.prim * Z * option (list JS.value))) :
  Forall (fun '(res, now, replies) =>
            Index.isFirstReplyNull replies = true
            /\ (Index.absent (JS.at_prim res 0) = true
                \/ 0 < JS.double_bitnot (JS.at_prim res 0))) rounds ->
  steps (Index.get (length rounds + retries) self decrBy)
        (flat_map (fun '(res, now, replies) =>
                     [Watched None; Values None res; Clock now; Replies None replies])
                  rounds)
  = Some (Index.get retries self decrBy).
Proof.
  unfold Index.get. set (opts := {| Index.count := _ |}).
  induction 1 as [| [[res now] replies] rounds (Hnull & Hwrote) _ IH];
    [reflexivity |].
  cbn [flat_map length Nat.add]. rewrite steps_app.
  assert (Hround : steps (Index.mget (S (length rounds + retries)) opts)
                         [Watched None; Values None res; Clock now; Replies None replies]
                   = Some (Index.mget (length rounds + retries) opts)).
  { change [Watched None; Values None res; Clock now; Replies None replies]
      with ([Watched None; Values None res] ++ [Clock now; Replies None replies]).
    rewrite steps_app, mget_branch.
    destruct (Index.absent (JS.at_prim res 0)) eqn:Habsent.
    - simpl. now rewrite Hnull.
    - destruct Hwrote as [Hw | Hn]; [discriminate |].
      cbn [steps].
      destruct (decr_writes (Index.restart (S (length rounds + retries)) opts)
                  opts res now Hn) as (k & -> & Hk).
      cbn [step]. now rewrite Hk, Hnull. }
  rewrite Hround. exact IH.
Qed.

Lemma restarts_have_no_bound_witness :
  steps (@Index.get Decimal.runtime 3 Sample.limiter None)
        (flat_map (fun '(res, now, replies) =>
                     [Watched None; Values None res; Clock now; Replies None replies])
                  [ ([JS.Null; JS.Null], Sample.now, None);
                    ([JS.Str "7"; JS.Str "1700000060"], Sample.now, None);
                    ([JS.Str "6"; JS.Str "1700000060"], Sample.now,
                     Some [JS.Bare (JS.Prim JS.Null); JS.Bare (JS.Prim (JS.Num (JS.of_Z 0)))]) ])
  = Some (@Index.get Decimal.runtime 0 Sample.limiter None).
Proof.
  apply (@restarts_have_no_bound Decimal.runtime 0 Sample.limiter None
           [ ([JS.Null; JS.Null], Sample.now, None);
             ([JS.Str "7"; JS.Str "1700000060"], Sample.now, None);
             ([JS.Str "6"; JS.Str "1700000060"], Sample.now,
              Some [JS.Bare (JS.Prim JS.Null); JS.Bare (JS.Prim (JS.Num (JS.of_Z 0)))]) ]).
  repeat constructor; vm_compute; reflexivity.
Defined.

(** ** The constructor *)




(** ** The limit key of [src/unnamed/part_000] *)

Section limit_key.
Context `{JS.Runtime}.

Hypothesis reads_back :
  forall z, - 2 ^ 31 <= z < 2 ^ 31 ->
            JS.StringToNumber (JS.NumberToString z) = JS.of_Z z.

(** The first query of an instance on an identifier without keys. *)
Lemma query_fresh_old c retries self now s :
  let count := (Part000.prefix self +:+ "count")%string in
  let limit := (Part000.prefix self +:+ "limit")%string in
  let reset := (Part000.prefix self +:+ "reset")%string in
  let max := Part000.max self in
  let ex := JS.wrap32 (Z.quot (now + Part000.duration self) 1000) in
  let E := Some (now + Part000.duration self) in
  Redis.dirty s = false ->
  Redis.get now (Redis.db s) count = None ->
  Redis.get now (Redis.db s) limit = None ->
  Redis.get now (Redis.db s) reset = None ->
  0 < Part000.duration self ->
  exists s',
    Redis.run c (Redis.quiet now 4) s (Part000.get retries self)
    = (s', Return (Success {| total := max; remaining := max; reset := ex |}))
    /\ Redis.dirty s' = false
    /\ Redis.db s' !! count
       = Some {| Redis.value := JS.NumberToString max; Redis.expire_at := E |}
    /\ Redis.db s' !! limit
       = Some {| Redis.value := JS.NumberToString max; Redis.expire_at := E |}
    /\ Redis.db s' !! reset
       = Some {| Redis.value := JS.NumberToString ex; Redis.expire_at := E |}.
Proof.
  intros count limit reset max ex E Hdirty Hcount Hlimit Hreset Hduration. subst E.
  destruct (keys_distinct (Part000.prefix self)) as (Hcr & Hcl & Hlr).
  fold count in Hcr, Hcl. fold reset in Hcr, Hlr. fold limit in Hcl, Hlr.
  unfold Part000.get. cbn [Redis.quiet repeat]. rewrite run_probe_old.
  cbn [Part000.count Part000.limit Part000.reset_key Redis.db]. cbn zeta.
  fold count. fold limit. fold reset.
  rewrite (proj2 (read_Null _ _ _) Hcount). cbn [JS.at_prim nth].
  change (Part000.absent JS.Null) with true. cbv iota.
  rewrite run_create_old by exact Hdirty.
  cbn [Part000.opt_duration Part000.opt_max Redis.db]. cbn zeta.
  fold max. rewrite reset_epoch. fold ex.
  unfold Part000.create_multi.
  cbn [Part000.count Part000.limit Part000.reset_key Part000.opt_duration Part000.opt_max].
  fold count. fold limit. fold reset. fold max. cbn [Redis.exec_commands].
  destruct (exec_SET_absent now (Redis.db s) count max _ Hduration Hcount) as (-> & _).
  set (db1 := <[count := _]> (Redis.db s)).
  assert (Hlimit1 : Redis.get now db1 limit = None)
    by (subst db1; now rewrite get_insert_ne).
  destruct (exec_SET_absent now db1 limit max _ Hduration Hlimit1) as (-> & _).
  set (db2 := <[limit := _]> db1).
  assert (Hreset2 : Redis.get now db2 reset = None)
    by (subst db2 db1; now rewrite !get_insert_ne).
  destruct (exec_SET_absent now db2 reset ex _ Hduration Hreset2) as (-> & _).
  cbn [fst snd].
  change Part000.isFirstReplyNull with Index.isFirstReplyNull.
  rewrite first_Ok_not_null. cbn [Redis.run].
  eexists. split; [reflexivity |]. cbn [Redis.dirty Redis.db].
  split; [reflexivity |]. subst db2 db1. repeat split.
  - rewrite !lookup_insert_ne by congruence. apply lookup_insert_eq.
  - rewrite lookup_insert_ne by congruence. apply lookup_insert_eq.
  - apply lookup_insert_eq.
Qed.

(** A query on a window with quota left, by any instance of the
    identifier. *)
Lemma query_existing_old c retries self now s cnt lim ex E :
  let count := (Part000.prefix self +:+ "count")%string in
  let limit := (Part000.prefix self +:+ "limit")%string in
  let reset := (Part000.prefix self +:+ "reset")%string in
  Redis.dirty s = false ->
  Redis.db s !! count
  = Some {| Redis.value := JS.NumberToString cnt; Redis.expire_at := Some E |} ->
  Redis.db s !! limit
  = Some {| Redis.value := JS.NumberToString lim; Redis.expire_at := Some E |} ->
  Redis.db s !! reset
  = Some {| Redis.value := JS.NumberToString ex; Redis.expire_at := Some E |} ->
  0 < cnt < 2 ^ 31 ->
  - 2 ^ 31 <= lim < 2 ^ 31 ->
  - 2 ^ 31 <= ex < 2 ^ 31 ->
  now < E ->
  now < ex * 1000 ->
  (Redis.run c (Redis.quiet now 4) s (Part000.get retries self)).2
  = Return (Success {| total := lim; remaining := cnt - 1; reset := ex |}).
Proof.
  intros count limit reset Hdirty Hcount Hlimit Hreset Hcnt Hlim Hex Hlive Httl.
  destruct (read_live now _ _ _ _ Hcount Hlive) as (Hgetc & Hreadc).
  destruct (read_live now _ _ _ _ Hlimit Hlive) as (_ & Hreadl).
  destruct (read_live now _ _ _ _ Hreset Hlive) as (_ & Hreadr).
  unfold Part000.get. cbn [Redis.quiet repeat]. rewrite run_probe_old.
  cbn [Part000.count Part000.limit Part000.reset_key Redis.db]. cbn zeta.
  fold count. fold limit. fold reset. rewrite Hreadc, Hreadl, Hreadr.
  cbn [JS.at_prim nth].
  change Part000.absent with Index.absent.
  rewrite (proj2 (absent_Str _) (NumberToString_nonempty cnt)).
  rewrite run_decr_old by (cbn [JS.at_prim nth Redis.dirty];
                           rewrite ?(parse_stored reads_back) by lia; lia || assumption).
  cbn [JS.at_prim nth Redis.db]. cbn zeta.
  rewrite !(parse_stored reads_back) by lia.
  unfold Part000.decr_multi.
  cbn [Part000.count Part000.limit Part000.reset_key]. fold count. fold limit. fold reset.
  set (ttl := ex * 1000 - now). assert (Hpos : 0 < ttl) by (subst ttl; lia).
  rewrite (surjective_pairing (Redis.exec_commands _ _ _)).
  assert (Hfirst : nth 0 (Redis.exec_commands now (Redis.db s)
                            [SET count (cnt - 1) ttl XX; PEXPIRE limit ttl;
                             PEXPIRE reset ttl]).2 Redis.Nil = Redis.Ok).
  { rewrite first_of_exec.
    now destruct (exec_SET_present now (Redis.db s) count (cnt - 1) ttl _ Hpos Hgetc)
      as (_ & ->). }
  cbn [fst snd].
  change Part000.isFirstReplyNull with Index.isFirstReplyNull.
  rewrite (committed_not_null c _ Hfirst). cbn [Redis.run snd].
  unfold Part000.done. destruct (Z.ltb_spec (cnt - 1) 0); [lia | reflexivity].
Qed.
End limit_key.

(** In [src/unnamed/part_000] the total of a window is the maximum of
    the instance that created it: when one instance opens the window
    and another instance of the same identifier, configured with any
    maximum and duration, queries it while it lasts, the second reports
    the maximum of the first as total, that maximum less one as
    remaining, and the reset of the first (with a runtime that reads
    integers back as they are printed). *)
Theorem part000_total_is_the_creators `{JS.Runtime}
    c retries creator other t0 t1 s :
  let count := (Part000.prefix creator +:+ "count")%string in
  let limit := (Part000.prefix creator +:+ "limit")%string in
  let reset := (Part000.prefix creator +:+ "reset")%string in
  let ex := JS.wrap32 (Z.quot (t0 + Part000.duration creator) 1000) in
  let first := Redis.run c (Redis.quiet t0 4) s (Part000.get retries creator) in
  let second := Redis.run c (Redis.quiet t1 4) first.1 (Part000.get retries other) in
  (forall z, - 2 ^ 31 <= z < 2 ^ 31 ->
             JS.StringToNumber (JS.NumberToString z) = JS.of_Z z) ->
  Part000.prefix other = Part000.prefix creator ->
  0 < Part000.max creator < 2 ^ 31 ->
  0 < Part000.duration creator ->
  0 <= t0 ->
  Redis.dirty s = false ->
  Redis.get t0 (Redis.db s) count = None ->
  Redis.get t0 (Redis.db s) limit = None ->
  Redis.get t0 (Redis.db s) reset = None ->
  t1 < ex * 1000 ->
  first.2 = Return (Success {| total := Part000.max creator;
                               remaining := Part000.max creator;
                               reset := ex |})
  /\ second.2 = Return (Success {| total := Part000.max creator;
                                   remaining := Part000.max creator - 1;
                                   reset := ex |}).
Proof.
  intros count limit reset ex first second Hlaw Hprefix Hmax Hduration Ht0
         Hdirty Hcount Hlimit Hreset Ht1.
  destruct (query_fresh_old c retries creator t0 s Hdirty Hcount Hlimit Hreset Hduration)
    as (s' & Hrun & Hdirty' & Hcount' & Hlimit' & Hreset').
  fold ex in Hrun, Hreset'. subst second first. rewrite Hrun. cbn [fst snd].
  split; [reflexivity |].
  assert (Hquot : 0 <= Z.quot (t0 + Part000.duration creator) 1000
                  /\ Z.quot (t0 + Part000.duration creator) 1000 * 1000
                     <= t0 + Part000.duration creator).
  { rewrite Z.quot_div_nonneg by lia.
    pose proof (Z.div_pos (t0 + Part000.duration creator) 1000 ltac:(lia) ltac:(lia)).
    pose proof (Z.mul_div_le (t0 + Part000.duration creator) 1000 ltac:(lia)). lia. }
  pose proof (wrap32_below (Z.quot (t0 + Part000.duration creator) 1000) ltac:(lia)).
  apply (query_existing_old Hlaw c retries other t1 s' (Part000.max creator)
           (Part000.max creator) ex (t0 + Part000.duration creator)).
  - exact Hdirty'.
  - rewrite Hprefix. exact Hcount'.
  - rewrite Hprefix. exact Hlimit'.
  - rewrite Hprefix. exact Hreset'.
  - exact Hmax.
  - lia.
  - apply wrap32_range.
  - subst ex. lia.
  - exact Ht1.
Qed.

Lemma part000_total_is_the_creators_witness :
  (Redis.run Redis.node_redis (Redis.quiet 1700000030000 4)
     (Redis.run Redis.node_redis (Redis.quiet Sample.now 4) (Redis.fresh ∅)
        (@Part000.get Decimal.runtime 0
           {| Part000.id := "x"; Part000.max := 20; Part000.duration := 60000;
              Part000.prefix := "limit:x:" |})).1
     (@Part000.get Decimal.runtime 0 Sample.old_limiter)).2
  = Return (Success {| total := 20; remaining := 19; reset := 1700000060 |}).
Proof.
  refine (eq_trans
            (proj2 (@part000_total_is_the_creators Decimal.runtime Redis.node_redis 0
                      {| Part000.id := "x"; Part000.max := 20; Part000.duration := 60000;
                         Part000.prefix := "limit:x:" |}
                      Sample.old_limiter Sample.now 1700000030000 (Redis.fresh ∅)
                      _ _ _ _ _ _ _ _ _ _)) _).
  - intros z _. apply parse_NumberToString.
  - reflexivity.
  - vm_compute. split; reflexivity.
  - reflexivity.
  - vm_compute. discriminate.
  - reflexivity.
  - reflexivity.
  - reflexivity.
  - reflexivity.
  - vm_compute. reflexivity.
  - vm_compute. reflexivity.
Defined.

(** ** A first command that failed *)

(** [isFirstReplyNull] does not see a failed command in the bare reply
    shape: when the first reply of the Decrement transaction is an
    [Error] object, the query reports the decrement as done, with
    remaining = max(n − decrBy, 0); in the paired shape ([[err]]) it
    restarts.  On the store, with bare replies: when the reset read is
    not ahead of the clock (ex*1000 <= now) and the count has quota
    left, the SET is refused for its expiration, the count key keeps
    its value and its expiration, the reset key is gone, and the query
    still reports the count less [decrBy]. *)
Theorem refused_write_is_reported_as_done `{JS.Runtime}
    retries self decrBy res now message rest s :
  let count := (Index.prefix self +:+ "count")%string in
  let reset := (Index.prefix self +:+ "reset")%string in
  let by_ := match decrBy with Some d => d | None => 1 end in
  let n := JS.double_bitnot (JS.at_prim res 0) in
  let ex := JS.double_bitnot (JS.at_prim res 1) in
  let result := Return (Success {| total := Index.max self;
                                   remaining := Z.max (n - by_) 0;
                                   reset := ex |}) in
  Index.absent (JS.at_prim res 0) = false ->
  0 < n ->
  steps (Index.get retries self decrBy)
        [Watched None; Values None res; Clock now;
         Replies None (Some (JS.Bare (JS.Error message) :: rest))]
  = Some result
  /\ steps (Index.get (S retries) self decrBy)
           [Watched None; Values None res; Clock now;
            Replies None (Some (JS.Array [JS.Error message] :: rest))]
     = Some (Index.get retries self decrBy)
  /\ (Redis.dirty s = false ->
      map (Redis.read now (Redis.db s)) [count; reset] = res ->
      ex * 1000 <= now ->
      exists s',
        Redis.run Redis.node_redis (Redis.quiet now 4) s
                  (Index.get retries self decrBy) = (s', result)
        /\ Redis.db s' !! count = Redis.db s !! count
        /\ Redis.get now (Redis.db s') reset = None).
Proof.
  intros count reset by_ n ex result Hpresent Hn.
  destruct (keys_distinct (Index.prefix self)) as (Hcr & _ & _).
  fold count in Hcr. fold reset in Hcr.
  unfold Index.get. set (opts := {| Index.count := _ |}).
  assert (Htrace : forall r replies,
             steps (Index.mget r opts)
                   [Watched None; Values None res; Clock now; Replies None replies]
             = Some (if Index.isFirstReplyNull replies then Index.restart r opts
                     else result)).
  { intros r replies.
    change [Watched None; Values None res; Clock now; Replies None replies]
      with ([Watched None; Values None res] ++ [Clock now; Replies None replies]).
    rewrite steps_app, mget_branch, Hpresent. cbn [steps].
    destruct (decr_writes (Index.restart r opts) opts res now Hn) as (k & -> & Hk).
    cbn [step]. rewrite Hk. reflexivity. }
  split; [now rewrite Htrace |]. split; [now rewrite Htrace |].
  intros Hdirty Hread Hex.
  cbn [Redis.quiet repeat]. rewrite run_probe.
  cbn [Index.count Index.reset_key Redis.db opts]. cbn zeta.
  fold count. fold reset.
  change [Redis.read now (Redis.db s) count; Redis.read now (Redis.db s) reset]
    with (map (Redis.read now (Redis.db s)) [count; reset]).
  rewrite Hread, Hpresent.
  rewrite run_decr by assumption.
  cbn [Index.decrBy Redis.db opts]. cbn zeta. fold n. fold ex. fold by_.
  unfold Index.decr_multi. cbn [Index.count Index.reset_key opts].
  fold count. fold reset.
  set (ttl := ex * 1000 - now). assert (Hneg : ttl <= 0) by (subst ttl; lia).
  cbn [Redis.exec_commands].
  destruct (exec_SET_refused now (Redis.db s) count (n - by_) ttl XX Hneg) as (m & ->).
  rewrite exec_PEXPIRE.
  destruct (Redis.get now (Redis.db s) reset) as [e |] eqn:Hreset.
  - destruct (Z.leb_spec ttl 0); [| lia].
    cbn [fst snd map Redis.shape Redis.to_scalar Redis.run].
    change (Index.isFirstReplyNull (Some (JS.Bare (JS.Error m) :: _))) with false.
    cbv iota. unfold Index.done. cbn [Index.opt_max opts].
    eexists. split; [reflexivity |]. cbn [Redis.db].
    split; [apply lookup_delete_ne; congruence |].
    unfold Redis.get. now rewrite lookup_delete_eq.
  - cbn [fst snd map Redis.shape Redis.to_scalar Redis.run].
    change (Index.isFirstReplyNull (Some (JS.Bare (JS.Error m) :: _))) with false.
    cbv iota. unfold Index.done. cbn [Index.opt_max opts].
    eexists. split; [reflexivity |]. cbn [Redis.db]. split; [reflexivity | exact Hreset].
Qed.

Lemma refused_write_is_reported_as_done_witness :
  exists s',
    Redis.run Redis.node_redis (Redis.quiet 1700000060050 4)
              (Redis.fresh (Sample.window "7"))
              (@Index.get Decimal.runtime 0 Sample.limiter None)
    = (s', Return (Success {| total := 10; remaining := 6; reset := 1700000060 |}))
    /\ Redis.db s' !! "limit:x:count" = Sample.window "7" !! "limit:x:count"
    /\ Redis.get 1700000060050 (Redis.db s') "limit:x:reset" = None.
Proof.
  refine (proj2 (proj2 (@refused_write_is_reported_as_done Decimal.runtime 0
                          Sample.limiter None [JS.Str "7"; JS.Str "1700000060"]
                          1700000060050 "" []
                          (Redis.fresh (Sample.window "7")) _ _)) _ _ _).
  - reflexivity.
  - vm_compute. reflexivity.
  - reflexivity.
  - vm_compute. reflexivity.
  - vm_compute. discriminate.
Defined.

(** ** One window after the other *)

(** When the keys of a window have expired, the next query opens a new
    window as on a fresh identifier, over the expired entries: it
    returns total = max and remaining = max(max − (decrBy − 1), 0)
    again.  While the clock stays within the 32-bit range of epoch
    seconds, the reset of the new window is not before the reset of the
    old one, and it is later when the duration is a second or more. *)
Theorem expired_window_is_reopened `{JS.Runtime}
    c retries self decrBy t0 t1 s :
  let count := (Index.prefix self +:+ "count")%string in
  let reset := (Index.prefix self +:+ "reset")%string in
  let by_ := match decrBy with Some d => d | None => 1 end in
  let adjusted := Z.max (Index.max self - (by_ - 1)) 0 in
  let ex0 := JS.wrap32 (Z.quot (t0 + Index.duration self) 1000) in
  let ex1 := JS.wrap32 (Z.quot (t1 + Index.duration self) 1000) in
  let first := Redis.run c (Redis.quiet t0 4) s (Index.get retries self decrBy) in
  let second := Redis.run c (Redis.quiet t1 4) first.1 (Index.get retries self decrBy) in
  0 < Index.duration self ->
  Redis.dirty s = false ->
  Redis.get t0 (Redis.db s) count = None ->
  Redis.get t0 (Redis.db s) reset = None ->
  t0 + Index.duration self <= t1 ->
  first.2 = Return (Success {| total := Index.max self; remaining := adjusted;
                               reset := ex0 |})
  /\ second.2 = Return (Success {| total := Index.max self; remaining := adjusted;
                                   reset := ex1 |})
  /\ (0 <= t0 -> t1 + Index.duration self < 2 ^ 31 * 1000 ->
      ex0 <= ex1 /\ (1000 <= Index.duration self -> ex0 < ex1)).
Proof.
  intros count reset by_ adjusted ex0 ex1 first second
         Hduration Hdirty Hcount Hreset Hlater.
  destruct (query_fresh c retries self decrBy t0 s Hdirty Hcount Hreset Hduration)
    as (s0 & Hrun0 & Hdirty0 & Hcount0 & Hreset0).
  subst second first. rewrite Hrun0. cbn [fst snd].
  assert (Hgone : forall key v,
             Redis.db s0 !! key
             = Some {| Redis.value := v;
                       Redis.expire_at := Some (t0 + Index.duration self) |} ->
             Redis.get t1 (Redis.db s0) key = None).
  { intros key v Hkey. unfold Redis.get, Redis.live. rewrite Hkey. simpl.
    destruct (Z.ltb_spec t1 (t0 + Index.duration self)); [lia | reflexivity]. }
  destruct (query_fresh c retries self decrBy t1 s0 Hdirty0
              (Hgone _ _ Hcount0) (Hgone _ _ Hreset0) Hduration)
    as (s1 & Hrun1 & _).
  rewrite Hrun1. cbn [snd].
  split; [reflexivity |]. split; [reflexivity |].
  intros Ht0 Hrange. subst ex0 ex1.
  rewrite <- !reset_epoch, !reset_epoch_floor by lia.
  split.
  - apply Z.div_le_mono; lia.
  - intros Hsecond.
    apply (Z.lt_le_trans _ ((t0 + Index.duration self + 1000) / 1000)).
    + replace (t0 + Index.duration self + 1000)
        with (t0 + Index.duration self + 1 * 1000) by lia.
      rewrite Z.div_add by lia. lia.
    + apply Z.div_le_mono; lia.
Qed.

Lemma expired_window_is_reopened_witness :
  (Redis.run Redis.node_redis (Redis.quiet 1700000060123 4)
     (Redis.run Redis.node_redis (Redis.quiet Sample.now 4) (Redis.fresh ∅)
        (@Index.get Decimal.runtime 0 Sample.limiter None)).1
     (@Index.get Decimal.runtime 0 Sample.limiter None)).2
  = Return (Success {| total := 10; remaining := 10; reset := 1700000120 |}).
Proof.
  refine (eq_trans
            (proj1 (proj2 (@expired_window_is_reopened Decimal.runtime Redis.node_redis
                             0 Sample.limiter None Sample.now 1700000060123
                             (Redis.fresh ∅) _ _ _ _ _))) _).
  - reflexivity.
  - reflexivity.
  - reflexivity.
  - reflexivity.
  - vm_compute. discriminate.
  - vm_compute. reflexivity.
Defined.

(** ** A count key that holds the empty string *)

(** A count key that is there and holds the empty string starves every
    query: the probe takes it for absent, the creation is refused
    because the key exists, and the query probes again; it goes round
    so for as long as it is let, without calling back and without
    touching the count key. *)
Theorem empty_count_starves_the_query `{JS.Runtime} c self decrBy now e retries :
  let count := (Index.prefix self +:+ "count")%string in
  0 < Index.duration self ->
  Redis.value e = "" ->
  forall s,
    Redis.dirty s = false ->
    Redis.get now (Redis.db s) count = Some e ->
    exists s',
      Redis.run c (Redis.quiet now (4 + 4 * retries)) s
                (Index.get retries self decrBy) = (s', OutOfRetries)
      /\ Redis.db s' !! count = Redis.db s !! count.
Proof.
  intros count Hduration Hempty.
  destruct (keys_distinct (Index.prefix self)) as (Hcr & _ & _).
  fold count in Hcr.
  unfold Index.get. set (opts := {| Index.count := _ |}).
  assert (Hround : forall r ticks s,
             Redis.dirty s = false ->
             Redis.get now (Redis.db s) count = Some e ->
             exists s1,
               Redis.run c (Redis.quiet now 4 ++ ticks) s (Index.mget r opts)
               = Redis.run c ticks s1 (Index.restart r opts)
               /\ Redis.dirty s1 = false
               /\ Redis.db s1 !! count = Redis.db s !! count).
  { intros r ticks s Hdirty Hcount.
    cbn [Redis.quiet repeat app]. rewrite run_probe.
    cbn [Index.count Index.reset_key Redis.db opts]. cbn zeta. fold count.
    assert (Hread : Redis.read now (Redis.db s) count = JS.Str "")
      by (unfold Redis.read; now rewrite Hcount, Hempty).
    cbn [JS.at_prim nth]. rewrite Hread.
    change (Index.absent (JS.Str "")) with true. cbv iota.
    rewrite run_create by exact Hdirty.
    cbn [Index.opt_duration Redis.db opts]. cbn zeta.
    unfold Index.create_multi. cbn [Index.count Index.reset_key Index.opt_duration opts].
    fold count. cbn [Redis.exec_commands].
    destruct (exec_SET_present now (Redis.db s) count
                (Z.max (Index.opt_max opts - (Index.decrBy opts - 1)) 0)
                (Index.duration self) e Hduration Hcount) as (-> & _).
    match goal with
    | |- context [Redis.exec_command now (Redis.db s) ?cmd] =>
        pose proof (exec_command_frame now (Redis.db s) cmd count
                      ltac:(cbn; congruence)) as Hframe;
        destruct (Redis.exec_command now (Redis.db s) cmd) as [db2 r2]
    end.
    cbn [fst snd] in *. rewrite first_Nil_null.
    eexists. split; [reflexivity |]. cbn [Redis.dirty Redis.db]. now split. }
  induction retries as [| r IH]; intros s Hdirty Hcount.
  - destruct (Hround 0%nat [] s Hdirty Hcount) as (s1 & Hrun & _ & Hsame).
    change (Redis.quiet now (4 + 4 * 0)) with (Redis.quiet now 4 ++ []).
    rewrite Hrun. eexists. split; [reflexivity | exact Hsame].
  - destruct (Hround (S r) (Redis.quiet now (4 + 4 * r)) s Hdirty Hcount)
      as (s1 & Hrun & Hdirty1 & Hsame).
    replace (Redis.quiet now (4 + 4 * S r))
      with (Redis.quiet now 4 ++ Redis.quiet now (4 + 4 * r)).
    2:{ unfold Redis.quiet. rewrite <- repeat_app. f_equal. lia. }
    rewrite Hrun. cbn [Index.restart].
    assert (Hcount1 : Redis.get now (Redis.db s1) count = Some e)
      by (unfold Redis.get in *; now rewrite Hsame).
    destruct (IH s1 Hdirty1 Hcount1) as (s' & Hrun' & Hsame').
    exists s'. split; [exact Hrun' | congruence].
Qed.

Lemma empty_count_starves_the_query_witness :
  exists s',
    Redis.run Redis.node_redis (Redis.quiet Sample.now 12)
              (Redis.fresh (Sample.window ""))
              (@Index.get Decimal.runtime 2 Sample.limiter None)
    = (s', OutOfRetries)
    /\ Redis.db s' !! "limit:x:count" = Sample.window "" !! "limit:x:count".
Proof.
  apply (@empty_count_starves_the_query Decimal.runtime Redis.node_redis
           Sample.limiter None Sample.now
           {| Redis.value := ""; Redis.expire_at := Some 1700000060123 |} 2%nat).
  - reflexivity.
  - reflexivity.
  - reflexivity.
  - reflexivity.
Defined.
